(** * Sales dashboard (src/app.py): data acquisition, synthetic data,
      filters and aggregates

    A shallow embedding of [load_data], [create_demo_data] and of the
    filter and aggregation part of [main], followed by the properties the
    specification states about them.

    Conventions of the embedding.
    - Python exceptions are values of [exn]; a call that can raise returns a
      [result].  Code that also touches the interpreter state (the global
      random generator, the Streamlit sidebar, the remote services) runs in
      the monad [M], which threads a [World] and keeps the state reached
      when an exception is raised, as Python does.
    - What [load_data] calls outside the program (imports, secrets store,
      JSON parser, Google client, DataFrame constructor) is a parameter of
      the model, the record [Services]; every such call is logged in the
      [World], so that the order and number of calls can be stated.
    - A DataFrame is the list of its rows, in index order; a column is the
      list of one field.  Rows are as [main] has them after lines 81-86: a
      date, two numeric columns, two labels.  The date is [option Date]:
      [None] is NaT, what [pd.to_datetime] makes of a blank cell.  The
      numeric columns hold [option Z]: [None] is the missing-value marker
      (NaN) left by [pd.to_numeric(errors='coerce')].  Amounts are integers
      and sums are exact: the wrap-around of int64 and the rounding of
      float64 are outside the model, and where a statement depends on them
      it says within which range the sums of pandas are exact.
    - The Mersenne Twister behind [random] is abstracted to the tape of raw
      draws it yields; [_randbelow n] reduces the next draw modulo [n].
    - The cache decorator of [load_data], the charts and the widgets are
      not modelled; the two sidebar inputs are arguments of [main]. *)

From Stdlib Require Import ZArith List String Ascii Bool Lia QArith.
From Stdlib Require Import Sorting.Sorted Sorting.Permutation.
Import ListNotations.

Local Open Scope string_scope.
Local Open Scope Z_scope.

(* ===================================================================== *)
(** ** Python runtime: exceptions and results *)
(* ===================================================================== *)

Module Py.

(** The exception classes that matter here.  The first group derives from
    [Exception]; the last three derive from [BaseException] only, so an
    [except Exception] clause lets them through. *)
Inductive exn_class : Type :=
| KeyError
| JSONDecodeError
| TypeError
| ValueError
| ImportError
| ZeroDivisionError
| OtherException (name : string)
| KeyboardInterrupt
| SystemExit
| GeneratorExit.

(** An exception instance: its class and [str(e)]. *)
Record exn : Type := mk_exn { exn_cls : exn_class; exn_str : string }.

(** [isinstance(e, Exception)] *)
Definition is_Exception (e : exn) : bool :=
  match exn_cls e with
  | KeyboardInterrupt | SystemExit | GeneratorExit => false
  | _ => true
  end.

Inductive result (A : Type) : Type :=
| Ok (a : A)
| Raise (e : exn).
Arguments Ok {A} a.
Arguments Raise {A} e.

End Py.
Import Py.

(* ===================================================================== *)
(** ** The interpreter state threaded through the program *)
(* ===================================================================== *)

(** State of the global [random] generator: the tape of raw draws and the
    number of draws consumed so far. *)
Record RandomState : Type := mkRandomState {
  tape : nat -> Z;
  consumed : nat
}.

(** What [st.sidebar] shows. *)
Inductive Notification : Type :=
| success (msg : string)
| warning (msg : string)
| error (msg : string)
| info (msg : string).

(** The calls [load_data] makes outside the program, in source order. *)
Inductive Call : Type :=
| CallImportGspread
| CallImportCredentials
| CallSecrets
| CallJsonLoads
| CallFromServiceAccountInfo
| CallAuthorize
| CallOpen
| CallSheet1
| CallGetAllRecords
| CallDataFrame.

Record World : Type := mkWorld {
  random_state : RandomState;
  sidebar : list Notification;
  calls : list Call
}.

(** State and exception monad.  The world after a [Raise] is the world at
    the point of the raise. *)
Definition M (A : Type) : Type := World -> result A * World.

Definition ret {A} (a : A) : M A := fun w => (Ok a, w).

Definition bind {A B} (m : M A) (k : A -> M B) : M B :=
  fun w =>
    match m w with
    | (Ok a, w') => k a w'
    | (Raise e, w') => (Raise e, w')
    end.

Definition lift {A} (r : result A) : M A := fun w => (r, w).

Declare Scope py_scope.
Delimit Scope py_scope with py.
Notation "x <- m ;; k" := (bind m (fun x => k))
  (at level 61, m at next level, right associativity) : py_scope.
Notation "m ;;; k" := (bind m (fun _ => k))
  (at level 61, right associativity) : py_scope.
Local Open Scope py_scope.

(** [try: body  except Exception as e: handler e] *)
Definition try_except_Exception {A} (body : M A) (handler : exn -> M A) : M A :=
  fun w =>
    match body w with
    | (Ok a, w') => (Ok a, w')
    | (Raise e, w') => if is_Exception e then handler e w' else (Raise e, w')
    end.

(** [[f x for x in xs]] with an effectful [f]. *)
Fixpoint mapM {A B} (f : A -> M B) (xs : list A) : M (list B) :=
  match xs with
  | [] => ret []
  | x :: xs' => y <- f x ;; ys <- mapM f xs' ;; ret (y :: ys)
  end.

(** [st.sidebar.success / warning / error / info] *)
Definition notify (n : Notification) : M unit :=
  fun w => (Ok tt, mkWorld (random_state w) (sidebar w ++ [n]) (calls w)).

(** A call that leaves the program: recorded, then its outcome. *)
Definition external {A} (c : Call) (r : result A) : M A :=
  fun w => (r, mkWorld (random_state w) (sidebar w) (calls w ++ [c])).

(* ===================================================================== *)
(** ** [random]: [_randbelow], [randint], [choice] *)
(* ===================================================================== *)

(** [random._randbelow(n)], for [n > 0]: the next draw, in [0, n). *)
Definition randbelow (n : Z) : M Z :=
  fun w =>
    let g := random_state w in
    (Ok (tape g (consumed g) mod n),
     mkWorld (mkRandomState (tape g) (S (consumed g))) (sidebar w) (calls w)).

(** [random.randint(a, b)] is [randrange(a, b+1)], that is
    [a + _randbelow(b + 1 - a)]. *)
Definition randint (a b : Z) : M Z :=
  u <- randbelow (b + 1 - a) ;; ret (a + u).

(** [random.choice(seq)] is [seq[_randbelow(len(seq))]]; [IndexError] on an
    empty sequence. *)
Definition choice {A} (seq : list A) : M A :=
  match seq with
  | [] => lift (Raise (mk_exn (OtherException "IndexError")
                              "Cannot choose from an empty sequence"))
  | _ :: _ =>
      u <- randbelow (Z.of_nat (List.length seq)) ;;
      match nth_error seq (Z.to_nat u) with
      | Some x => ret x
      | None => lift (Raise (mk_exn (OtherException "IndexError")
                                    "list index out of range"))
      end
  end.

(* ===================================================================== *)
(** ** Calendar dates *)
(* ===================================================================== *)

Record Date : Type := mkDate { year : Z; month : Z; day : Z }.

(** [calendar.isleap]: [y % 4 == 0 and (y % 100 != 0 or y % 400 == 0)] *)
Definition is_leap (y : Z) : bool :=
  (y mod 4 =? 0) && (negb (y mod 100 =? 0) || (y mod 400 =? 0)).

Definition days_in_month (y m : Z) : Z :=
  if m =? 2 then (if is_leap y then 29 else 28)
  else if (m =? 4) || (m =? 6) || (m =? 9) || (m =? 11) then 30
  else 31.

Definition valid_date (d : Date) : bool :=
  (1 <=? month d) && (month d <=? 12) &&
  (1 <=? day d) && (day d <=? days_in_month (year d) (month d)).

(** The day after [d]. *)
Definition next_day (d : Date) : Date :=
  if day d <? days_in_month (year d) (month d)
  then mkDate (year d) (month d) (day d + 1)
  else if month d <? 12
       then mkDate (year d) (month d + 1) 1
       else mkDate (year d + 1) 1 1.

(** Order of [datetime.date]: lexicographic on (year, month, day). *)
Definition date_compare (a b : Date) : comparison :=
  match year a ?= year b with
  | Eq => match month a ?= month b with
          | Eq => day a ?= day b
          | c => c
          end
  | c => c
  end.

Definition date_le (a b : Date) : bool :=
  match date_compare a b with Gt => false | _ => true end.

Definition date_ge (a b : Date) : bool := date_le b a.

Definition date_eqb (a b : Date) : bool :=
  match date_compare a b with Eq => true | _ => false end.

(** [datetime.date.toordinal]: days since 0001-01-01, that day being 1. *)
Definition days_before_year (y : Z) : Z :=
  let y1 := y - 1 in y1 * 365 + y1 / 4 - y1 / 100 + y1 / 400.

Fixpoint days_before_month_aux (y : Z) (m : nat) : Z :=
  match m with
  | O => 0
  | S m' => days_before_month_aux y m' + days_in_month y (Z.of_nat m)
  end.

Definition days_before_month (y m : Z) : Z :=
  days_before_month_aux y (Z.to_nat (m - 1)).

Definition toordinal (d : Date) : Z :=
  days_before_year (year d) + days_before_month (year d) (month d) + day d.

(** Reading an ISO date 'YYYY-MM-DD'. *)
Definition digit_value (c : ascii) : option Z :=
  let n := nat_of_ascii c in
  if (48 <=? n)%nat && (n <=? 57)%nat then Some (Z.of_nat (n - 48)) else None.

Definition number2 (a b : ascii) : option Z :=
  match digit_value a, digit_value b with
  | Some x, Some y => Some (10 * x + y)
  | _, _ => None
  end.

Definition number4 (a b c d : ascii) : option Z :=
  match number2 a b, number2 c d with
  | Some x, Some y => Some (100 * x + y)
  | _, _ => None
  end.

Definition parse_iso_date (s : string) : result Date :=
  let bad := Raise (mk_exn ValueError ("could not convert string to Timestamp: " ++ s)%string) in
  match s with
  | String y1 (String y2 (String y3 (String y4 (String "-"
      (String m1 (String m2 (String "-" (String d1 (String d2 EmptyString))))))))) =>
      match number4 y1 y2 y3 y4, number2 m1 m2, number2 d1 d2 with
      | Some y, Some m, Some d =>
          let dt := mkDate y m d in
          if valid_date dt then Ok dt else bad
      | _, _, _ => bad
      end
  | _ => bad
  end.

(** [pd.date_range(start, end, freq='D')]: the days from [start] on, one
    step of a day at a time, while not after [end]. *)
Fixpoint days_from (n : nat) (d e : Date) : list Date :=
  match n with
  | O => []
  | S n' => if date_le d e then d :: days_from n' (next_day d) e else []
  end.

Definition date_range (start end_ : string) : result (list Date) :=
  match parse_iso_date start with
  | Raise e => Raise e
  | Ok s =>
      match parse_iso_date end_ with
      | Raise e => Raise e
      | Ok e => Ok (days_from (Z.to_nat (toordinal e - toordinal s + 1)) s e)
      end
  end.

(** [Timestamp.to_period('M')] rendered by [astype(str)]: 'YYYY-MM'. *)
Definition digit_char (n : Z) : ascii := ascii_of_nat (48 + Z.to_nat (n mod 10)).

Definition pad2 (n : Z) : string :=
  String (digit_char (n / 10)) (String (digit_char n) EmptyString).

Definition pad4 (n : Z) : string :=
  String (digit_char (n / 1000)) (String (digit_char (n / 100)) (pad2 n)).

Definition period_M (d : Date) : string :=
  (pad4 (year d) ++ "-" ++ pad2 (month d))%string.

(* ===================================================================== *)
(** ** DataFrames *)
(* ===================================================================== *)

(** One row of the table; the columns of the source.  [date] is [None]
    for NaT, what [pd.to_datetime] (line 85) makes of a blank cell; [sales]
    and [customers] are [None] for NaN, what [pd.to_numeric] with
    [errors='coerce'] (lines 81-82) makes of a cell that is not a number.
    Amounts are integers: a sheet with decimal amounts is outside this
    model. *)
Record Row : Type := mkRow {
  date : option Date;
  sales : option Z;
  customers : option Z;
  product : string;
  region : string
}.

Definition Dataset : Type := list Row.

(** The derived column [df['month']] (line 86).  A row without a date has
    no month either: its key is missing in the table by month as it is in
    the table by date. *)
Definition month_col (r : Row) : option string := option_map period_M (date r).

Fixpoint zip_columns (ds : list Date) (ss cs : list Z) (ps rs : list string)
  : Dataset :=
  match ds, ss, cs, ps, rs with
  | d :: ds', s :: ss', c :: cs', p :: ps', r :: rs' =>
      mkRow (Some d) (Some s) (Some c) p r :: zip_columns ds' ss' cs' ps' rs'
  | _, _, _, _, _ => []
  end.

(** [pd.DataFrame({...})] from five columns; columns of unequal length are
    a [ValueError]. *)
Definition DataFrame_of_columns
  (ds : list Date) (ss cs : list Z) (ps rs : list string) : result Dataset :=
  let n := List.length ds in
  if (List.length ss =? n)%nat && (List.length cs =? n)%nat &&
     (List.length ps =? n)%nat && (List.length rs =? n)%nat
  then Ok (zip_columns ds ss cs ps rs)
  else Raise (mk_exn ValueError "All arrays must be of the same length").

(** [range(n)] *)
Definition range (n : nat) : list Z := map Z.of_nat (seq 0 n).

Definition products : list string :=
  ["Product A"; "Product B"; "Product C"; "Product D"].

Definition regions : list string :=
  ["Tashkent"; "Samarkand"; "Bukhara"; "Fergana"].

(* ===================================================================== *)
(** ** [create_demo_data] *)
(* ===================================================================== *)

Definition create_demo_data : M Dataset :=
  dates <- lift (date_range "2024-01-01" "2024-12-31") ;;
  sales_col <- mapM (fun i => n <- randint (-5000) 10000 ;;
                              ret (50000 + i * 100 + n))
                    (range (List.length dates)) ;;
  customers_col <- mapM (fun _ => n <- randint (-20) 50 ;; ret (100 + n))
                        (range (List.length dates)) ;;
  product_col <- mapM (fun _ => choice products) (range (List.length dates)) ;;
  region_col <- mapM (fun _ => choice regions) (range (List.length dates)) ;;
  lift (DataFrame_of_columns dates sales_col customers_col product_col region_col).

(* ===================================================================== *)
(** ** [load_data] *)
(* ===================================================================== *)

(** Everything [load_data] reaches outside the program: the two imports,
    the secrets store, the JSON parser, the Google client libraries and the
    DataFrame constructor.  Each can raise. *)
Record Services : Type := mkServices {
  Json : Type;
  Credentials : Type;
  Client : Type;
  Spreadsheet : Type;
  Worksheet : Type;
  Records : Type;
  import_gspread : result unit;
  import_Credentials : result unit;
  secrets_getitem : string -> result string;
  json_loads : string -> result Json;
  from_service_account_info : Json -> list string -> result Credentials;
  authorize : Credentials -> result Client;
  client_open : Client -> string -> result Spreadsheet;
  sheet1 : Spreadsheet -> result Worksheet;
  get_all_records : Worksheet -> result Records;
  DataFrame : Records -> result Dataset
}.

Definition scopes : list string :=
  ["https://www.googleapis.com/auth/spreadsheets";
   "https://www.googleapis.com/auth/drive"].

Definition msg_loaded : string := "✅ Google Sheets dan yuklandi!".
Definition msg_failed : string := "⚠️ Google Sheets ishlamadi".
Definition msg_demo : string := "📊 Demo ma'lumot bilan ishlayapman".

(** The body of the [try]. *)
Definition acquire (env : Services) : M Dataset :=
  external CallImportGspread (import_gspread env) ;;;
  external CallImportCredentials (import_Credentials env) ;;;
  secret <- external CallSecrets (secrets_getitem env "GOOGLE_CREDS_JSON") ;;
  creds_dict <- external CallJsonLoads (json_loads env secret) ;;
  credentials <- external CallFromServiceAccountInfo
                   (from_service_account_info env creds_dict scopes) ;;
  client <- external CallAuthorize (authorize env credentials) ;;
  book <- external CallOpen (client_open env client "Streamlid") ;;
  sheet <- external CallSheet1 (sheet1 env book) ;;
  data <- external CallGetAllRecords (get_all_records env sheet) ;;
  df <- external CallDataFrame (DataFrame env data) ;;
  notify (success msg_loaded) ;;;
  ret df.

(** The [except Exception as e] handler. *)
Definition fallback (e : exn) : M Dataset :=
  notify (warning msg_failed) ;;;
  notify (error (exn_str e)) ;;;
  notify (info msg_demo) ;;;
  create_demo_data.

Definition load_data (env : Services) : M Dataset :=
  try_except_Exception (acquire env) fallback.

(* ===================================================================== *)
(** ** [main]: filters *)
(* ===================================================================== *)

(** [df[name]] *)
Definition col {A} (f : Row -> A) (df : Dataset) : list A := map f df.

(** [series >= d], [series <= d] on dates, [series == v] on labels, and
    the elementwise [&] of two boolean Series.  A comparison with NaT is
    [False]. *)
Definition series_ge (s : list (option Date)) (d : Date) : list bool :=
  map (fun x => match x with Some a => date_ge a d | None => false end) s.

Definition series_le (s : list (option Date)) (d : Date) : list bool :=
  map (fun x => match x with Some a => date_le a d | None => false end) s.

Definition series_eq (s : list string) (v : string) : list bool :=
  map (fun x => String.eqb x v) s.

Fixpoint series_and (a b : list bool) : list bool :=
  match a, b with
  | x :: a', y :: b' => (x && y) :: series_and a' b'
  | _, _ => []
  end.

(** [df[mask]]: the rows whose mask entry is [True]. *)
Fixpoint getitem_mask (df : Dataset) (mask : list bool) : Dataset :=
  match df, mask with
  | r :: df', b :: mask' =>
      if b then r :: getitem_mask df' mask' else getitem_mask df' mask'
  | _, _ => []
  end.

(** Lines 104-105.  [date_range] is what the date picker returned: a tuple
    of two dates once both ends are chosen, shorter before. *)
Definition date_filter (date_range : list Date) (df : Dataset) : Dataset :=
  if (List.length date_range =? 2)%nat
  then getitem_mask df
         (series_and (series_ge (col date df) (nth 0 date_range (mkDate 0 0 0)))
                     (series_le (col date df) (nth 1 date_range (mkDate 0 0 0))))
  else df.

Definition Barchasi : string := "Barchasi".

(** Lines 111-112. *)
Definition region_filter (selected_region : string) (df : Dataset) : Dataset :=
  if negb (String.eqb selected_region Barchasi)
  then getitem_mask df (series_eq (col region df) selected_region)
  else df.

(** [Series.unique()]: distinct values, in order of first appearance. *)
Fixpoint unique (s : list string) : list string :=
  match s with
  | [] => []
  | x :: s' => x :: filter (fun y => negb (String.eqb y x)) (unique s')
  end.

Fixpoint insert_sorted (x : string) (l : list string) : list string :=
  match l with
  | [] => [x]
  | y :: l' => if String.leb x y then x :: l else y :: insert_sorted x l'
  end.

(** [sorted(list_of_str)] *)
Definition sorted (l : list string) : list string :=
  fold_right insert_sorted [] l.

(** Line 108: the options of the region selector. *)
Definition region_options (df : Dataset) : list string :=
  Barchasi :: sorted (unique (col region df)).

(* ===================================================================== *)
(** ** [main]: aggregates *)
(* ===================================================================== *)

(** [Series.sum()], which skips missing values.  The sum is the exact
    integer; it is the int64 or float64 sum of pandas as long as the
    magnitudes add up to less than 2^53 (see [sales_exact]). *)
Definition series_sum (s : list (option Z)) : Z :=
  fold_left (fun acc v => match v with Some x => acc + x | None => acc end) s 0.

Definition total_sales (df : Dataset) : Z := series_sum (col sales df).

Definition total_customers (df : Dataset) : Z := series_sum (col customers df).

(** Python's [a / b]. *)
Definition truediv (a b : Z) : result Q :=
  if b =? 0
  then Raise (mk_exn ZeroDivisionError "division by zero")
  else Ok (inject_Z a / inject_Z b)%Q.

(** Line 134:
    [total_sales / total_customers if total_customers > 0 else 0] *)
Definition avg_order (total_sales total_customers : Z) : result Q :=
  if total_customers >? 0 then truediv total_sales total_customers else Ok 0%Q.

Definition avg_order_of (df : Dataset) : result Q :=
  avg_order (total_sales df) (total_customers df).

(** Keys a table can be grouped by. *)
Class Key (K : Type) : Type := { key_compare : K -> K -> comparison }.

#[export] Instance Key_string : Key string := {| key_compare := String.compare |}.
#[export] Instance Key_Date : Key Date := {| key_compare := date_compare |}.

(** One step of a grouped sum: [v] goes to the bucket of [k]; a missing
    value adds nothing but its key still gets a bucket.  Buckets are kept in
    ascending key order, as [groupby] (sort=True) returns them. *)
Fixpoint bucket_add {K} `{Key K} (k : K) (v : option Z) (groups : list (K * Z))
  : list (K * Z) :=
  let x := match v with Some z => z | None => 0 end in
  match groups with
  | [] => [(k, x)]
  | (k', s) :: groups' =>
      match key_compare k k' with
      | Lt => (k, x) :: groups
      | Eq => (k', s + x) :: groups'
      | Gt => (k', s) :: bucket_add k v groups'
      end
  end.

(** A column that has a value in every row. *)
Definition present {A B} (f : A -> B) : A -> option B := fun a => Some (f a).

(** [df.groupby(key)[value].sum()].  A row whose key is missing goes to no
    group ([dropna=True], the default of [groupby]). *)
Definition groupby_sum {K} `{Key K} (key : Row -> option K) (value : Row -> option Z)
  (df : Dataset) : list (K * Z) :=
  fold_left (fun groups r =>
               match key r with
               | Some k => bucket_add k (value r) groups
               | None => groups
               end) df [].

Fixpoint insert_by_value {K} (x : K * Z) (l : list (K * Z)) : list (K * Z) :=
  match l with
  | [] => [x]
  | y :: l' => if snd x <=? snd y then x :: l else y :: insert_by_value x l'
  end.

(** [Series.sort_values(ascending=True)].  The order among equal values is
    not fixed by pandas' default sort; nothing below depends on it. *)
Definition sort_values {K} (s : list (K * Z)) : list (K * Z) :=
  fold_right insert_by_value [] s.

(** Lines 146, 161, 178 and 194. *)
Definition daily_sales (df : Dataset) : list (Date * Z) :=
  groupby_sum date sales df.

Definition product_sales (df : Dataset) : list (string * Z) :=
  groupby_sum (present product) sales df.

Definition region_sales (df : Dataset) : list (string * Z) :=
  sort_values (groupby_sum (present region) sales df).

Definition monthly_sales (df : Dataset) : list (string * Z) :=
  groupby_sum month_col sales df.

(** Sum of the [sales] column of a grouped table. *)
Definition sum_of_groups {K} (groups : list (K * Z)) : Z :=
  fold_right Z.add 0 (map snd groups).

(** What [main] computes from the loaded table and the two sidebar inputs. *)
Record Dashboard : Type := mkDashboard {
  view : Dataset;
  kpi_total_sales : Z;
  kpi_total_customers : Z;
  kpi_avg_order : result Q;
  chart_daily : list (Date * Z);
  chart_product : list (string * Z);
  chart_region : list (string * Z);
  chart_monthly : list (string * Z)
}.

Definition main (df : Dataset) (date_range : list Date) (selected_region : string)
  : Dashboard :=
  let df1 := date_filter date_range df in
  let df2 := region_filter selected_region df1 in
  mkDashboard df2 (total_sales df2) (total_customers df2) (avg_order_of df2)
    (daily_sales df2) (product_sales df2) (region_sales df2) (monthly_sales df2).

(* ===================================================================== *)
(** ** [main]: the other values it computes *)
(* ===================================================================== *)

(** Lines 94-95: [df['date'].min().date()] and [df['date'].max().date()],
    the bounds and the default value of the date picker.  NaT entries are
    skipped; [None] is NaT, what pandas returns on a column with no date. *)
Fixpoint series_min (s : list (option Date)) : option Date :=
  match s with
  | [] => None
  | x :: s' =>
      match x, series_min s' with
      | None, m => m
      | Some d, None => Some d
      | Some d, Some m => Some (if date_le d m then d else m)
      end
  end.

Fixpoint series_max (s : list (option Date)) : option Date :=
  match s with
  | [] => None
  | x :: s' =>
      match x, series_max s' with
      | None, m => m
      | Some d, None => Some d
      | Some d, Some m => Some (if date_le m d then d else m)
      end
  end.

Definition min_date (df : Dataset) : option Date := series_min (col date df).

Definition max_date (df : Dataset) : option Date := series_max (col date df).

(** [Series.count()]: the number of values that are not missing. *)
Definition series_count (s : list (option Z)) : Z :=
  fold_left (fun acc v => match v with Some _ => acc + 1 | None => acc end) s 0.

(** [Series.mean()]: the sum of the values present over their number;
    [None] is NaN, the mean of a column with no value.  The quotient is the
    exact rational, which the float64 of pandas approximates. *)
Definition series_mean (s : list (option Z)) : option Q :=
  if series_count s =? 0 then None
  else Some (inject_Z (series_sum s) / inject_Z (series_count s))%Q.

(** Line 126. *)
Definition avg_sales (df : Dataset) : option Q := series_mean (col sales df).

(** Line 220: [now.strftime('%Y%m%d')] and the name of the download. *)
Definition strftime_Ymd (d : Date) : string :=
  (pad4 (year d) ++ pad2 (month d) ++ pad2 (day d))%string.

Definition download_name (now : Date) : string :=
  ("sales_" ++ strftime_Ymd now ++ ".csv")%string.

(* ===================================================================== *)
(** * Vocabulary of the statements *)
(* ===================================================================== *)

(** [a] is not after [b]. *)
Definition Date_le (a b : Date) : Prop :=
  year a < year b \/
  (year a = year b /\
   (month a < month b \/ (month a = month b /\ day a <= day b))).

Definition value_or_0 (v : option Z) : Z :=
  match v with Some z => z | None => 0 end.

(** Order of two entries of a grouped table by their sums. *)
Definition value_le {K : Type} (a b : K * Z) : Prop := snd a <= snd b.

Definition example_rows : Dataset :=
  [ mkRow (Some (mkDate 2024 1 1)) (Some 50000) (Some 100) "Product A" "Tashkent";
    mkRow (Some (mkDate 2024 1 2)) (Some 50105) (Some 90) "Product B" "Bukhara";
    mkRow (Some (mkDate 2024 1 3)) (Some 50210) (Some 120) "Product A" "Tashkent" ].

(** The world after [k] more draws. *)
Definition advance (k : nat) (w : World) : World :=
  mkWorld (mkRandomState (tape (random_state w)) (consumed (random_state w) + k))
          (sidebar w) (calls w).

(** The raw draw the generator hands out at absolute position [p]. *)
Definition draw_at (w : World) (p : nat) : Z := tape (random_state w) p.

Definition first_day : Date := mkDate 2024 1 1.
Definition last_day : Date := mkDate 2024 12 31.

(** The value of the [dates] index of [create_demo_data]. *)
Definition dates_2024 : list Date := days_from 366 first_day last_day.
Arguments dates_2024 : simpl never.

(** Row [k] of the demo table built in world [w]: the four columns are
    filled one after the other, so the draws of row [k] sit 366 apart. *)
Definition demo_row (w : World) (k : nat) : Row :=
  let p := consumed (random_state w) in
  mkRow (Some (nth k dates_2024 first_day))
        (Some (50000 + Z.of_nat k * 100 + (-5000 + draw_at w (p + k) mod 15001)))
        (Some (100 + (-20 + draw_at w (p + 366 + k) mod 71)))
        (nth (Z.to_nat (draw_at w (p + 732 + k) mod 4)) products EmptyString)
        (nth (Z.to_nat (draw_at w (p + 1098 + k) mod 4)) regions EmptyString).

(** The world whose generator will hand out [a], [b], [c], [d] as the draws
    that fill row [i]. *)
Definition world_with_draws (i : nat) (a b c d : Z) : World :=
  mkWorld (mkRandomState
             (fun p => if (p =? i)%nat then a
                       else if (p =? 366 + i)%nat then b
                       else if (p =? 732 + i)%nat then c
                       else if (p =? 1098 + i)%nat then d
                       else 0)
             0) [] [].

Definition world0 : World :=
  mkWorld (mkRandomState (fun k => Z.of_nat k * 7919 + 13) 0) [] [].

(** [f] sends the [n] outcomes of [_randbelow n] one to one onto the
    values: every outcome gives a value, every value comes from exactly one
    outcome.  With equally likely outcomes the values are equally likely. *)
Definition evenly_spread {A} (n : Z) (f : Z -> A) (values : A -> Prop) : Prop :=
  (forall u, 0 <= u < n -> values (f u))
  /\ (forall x, values x -> exists! u, 0 <= u < n /\ f u = x).

(** What every row of the demo table satisfies, whatever its index. *)
Definition demo_bounds (r : Row) : Prop :=
  exists s c, sales r = Some s /\ customers r = Some c /\
              45000 <= s /\ 80 <= c <= 150.

(** The calls of the [try] body, in the order of the source. *)
Definition acquisition_calls : list Call :=
  [CallImportGspread; CallImportCredentials; CallSecrets; CallJsonLoads;
   CallFromServiceAccountInfo; CallAuthorize; CallOpen; CallSheet1;
   CallGetAllRecords; CallDataFrame].

(** [acquisition_failure env e n]: the first [n] calls return normally and
    call number [n] (counting from 0) raises [e]. *)
Inductive acquisition_failure (env : Services) (e : exn) : nat -> Prop :=
| fail_import_gspread :
    import_gspread env = Raise e ->
    acquisition_failure env e 0
| fail_import_Credentials u0 :
    import_gspread env = Ok u0 ->
    import_Credentials env = Raise e ->
    acquisition_failure env e 1
| fail_secrets u0 u1 :
    import_gspread env = Ok u0 ->
    import_Credentials env = Ok u1 ->
    secrets_getitem env "GOOGLE_CREDS_JSON" = Raise e ->
    acquisition_failure env e 2
| fail_json_loads u0 u1 secret :
    import_gspread env = Ok u0 ->
    import_Credentials env = Ok u1 ->
    secrets_getitem env "GOOGLE_CREDS_JSON" = Ok secret ->
    json_loads env secret = Raise e ->
    acquisition_failure env e 3
| fail_from_service_account_info u0 u1 secret creds_dict :
    import_gspread env = Ok u0 ->
    import_Credentials env = Ok u1 ->
    secrets_getitem env "GOOGLE_CREDS_JSON" = Ok secret ->
    json_loads env secret = Ok creds_dict ->
    from_service_account_info env creds_dict scopes = Raise e ->
    acquisition_failure env e 4
| fail_authorize u0 u1 secret creds_dict credentials :
    import_gspread env = Ok u0 ->
    import_Credentials env = Ok u1 ->
    secrets_getitem env "GOOGLE_CREDS_JSON" = Ok secret ->
    json_loads env secret = Ok creds_dict ->
    from_service_account_info env creds_dict scopes = Ok credentials ->
    authorize env credentials = Raise e ->
    acquisition_failure env e 5
| fail_open u0 u1 secret creds_dict credentials client :
    import_gspread env = Ok u0 ->
    import_Credentials env = Ok u1 ->
    secrets_getitem env "GOOGLE_CREDS_JSON" = Ok secret ->
    json_loads env secret = Ok creds_dict ->
    from_service_account_info env creds_dict scopes = Ok credentials ->
    authorize env credentials = Ok client ->
    client_open env client "Streamlid" = Raise e ->
    acquisition_failure env e 6
| fail_sheet1 u0 u1 secret creds_dict credentials client book :
    import_gspread env = Ok u0 ->
    import_Credentials env = Ok u1 ->
    secrets_getitem env "GOOGLE_CREDS_JSON" = Ok secret ->
    json_loads env secret = Ok creds_dict ->
    from_service_account_info env creds_dict scopes = Ok credentials ->
    authorize env credentials = Ok client ->
    client_open env client "Streamlid" = Ok book ->
    sheet1 env book = Raise e ->
    acquisition_failure env e 7
| fail_get_all_records u0 u1 secret creds_dict credentials client book sheet :
    import_gspread env = Ok u0 ->
    import_Credentials env = Ok u1 ->
    secrets_getitem env "GOOGLE_CREDS_JSON" = Ok secret ->
    json_loads env secret = Ok creds_dict ->
    from_service_account_info env creds_dict scopes = Ok credentials ->
    authorize env credentials = Ok client ->
    client_open env client "Streamlid" = Ok book ->
    sheet1 env book = Ok sheet ->
    get_all_records env sheet = Raise e ->
    acquisition_failure env e 8
| fail_DataFrame u0 u1 secret creds_dict credentials client book sheet data :
    import_gspread env = Ok u0 ->
    import_Credentials env = Ok u1 ->
    secrets_getitem env "GOOGLE_CREDS_JSON" = Ok secret ->
    json_loads env secret = Ok creds_dict ->
    from_service_account_info env creds_dict scopes = Ok credentials ->
    authorize env credentials = Ok client ->
    client_open env client "Streamlid" = Ok book ->
    sheet1 env book = Ok sheet ->
    get_all_records env sheet = Ok data ->
    DataFrame env data = Raise e ->
    acquisition_failure env e 9.

(** Every call returns normally and the last one returns [df]. *)
Inductive acquisition_success (env : Services) (df : Dataset) : Prop :=
| all_steps_ok u0 u1 secret creds_dict credentials client book sheet data :
    import_gspread env = Ok u0 ->
    import_Credentials env = Ok u1 ->
    secrets_getitem env "GOOGLE_CREDS_JSON" = Ok secret ->
    json_loads env secret = Ok creds_dict ->
    from_service_account_info env creds_dict scopes = Ok credentials ->
    authorize env credentials = Ok client ->
    client_open env client "Streamlid" = Ok book ->
    sheet1 env book = Ok sheet ->
    get_all_records env sheet = Ok data ->
    DataFrame env data = Ok df ->
    acquisition_success env df.

(** The services fail the ordinary way: what they raise derives from
    [Exception] (KeyError, ValueError, the errors of gspread and of the
    HTTP layer, ...), not from [BaseException] alone. *)
Definition ordinary_failures (env : Services) : Prop :=
  forall e n, acquisition_failure env e n -> is_Exception e = true.

(** Absent or malformed credentials: the secret is missing, or it is not
    JSON, or the JSON is not a service-account key. *)
Definition credentials_rejected (env : Services) : Prop :=
  (exists e, secrets_getitem env "GOOGLE_CREDS_JSON" = Raise e)
  \/ (exists secret e,
        secrets_getitem env "GOOGLE_CREDS_JSON" = Ok secret
        /\ json_loads env secret = Raise e)
  \/ (exists secret creds_dict e,
        secrets_getitem env "GOOGLE_CREDS_JSON" = Ok secret
        /\ json_loads env secret = Ok creds_dict
        /\ from_service_account_info env creds_dict scopes = Raise e).

(** The world once [trace] has been called and [notes] shown. *)
Definition after (w : World) (notes : list Notification) (trace : list Call) : World :=
  mkWorld (random_state w) (sidebar w ++ notes) (calls w ++ trace).

Definition fallback_notes (e : exn) : list Notification :=
  [warning msg_failed; error (exn_str e); info msg_demo].

(** Three environments: the secret is missing; the secret is not JSON; the
    service account is refused. *)
Definition env_no_secret : Services :=
  mkServices unit unit unit unit unit unit
    (Ok tt) (Ok tt)
    (fun _ => Raise (mk_exn KeyError "'GOOGLE_CREDS_JSON'"))
    (fun _ => Ok tt) (fun _ _ => Ok tt) (fun _ => Ok tt) (fun _ _ => Ok tt)
    (fun _ => Ok tt) (fun _ => Ok tt) (fun _ => Ok []).

Definition env_bad_json : Services :=
  mkServices unit unit unit unit unit unit
    (Ok tt) (Ok tt)
    (fun _ => Ok "{service_account")
    (fun _ => Raise (mk_exn JSONDecodeError
                       "Expecting property name enclosed in double quotes"))
    (fun _ _ => Ok tt) (fun _ => Ok tt) (fun _ _ => Ok tt)
    (fun _ => Ok tt) (fun _ => Ok tt) (fun _ => Ok []).


(** [key_compare] is a strict total order. *)
Class KeyOrder (K : Type) `{Key K} : Prop := {
  key_compare_eq : forall a b : K, key_compare a b = Eq <-> a = b;
  key_compare_antisym : forall a b : K, key_compare a b = CompOpp (key_compare b a);
  key_compare_trans : forall a b c : K,
      key_compare a b = Lt -> key_compare b c = Lt -> key_compare a c = Lt
}.

Definition same_key {K} `{Key K} (a b : K) : bool :=
  match key_compare a b with Eq => true | _ => false end.

(** Total of [value] over the rows whose key is [k]. *)
Definition class_total {K} `{Key K} (key : Row -> K) (value : Row -> option Z)
  (k : K) (df : Dataset) : Z :=
  series_sum (map value (filter (fun r => same_key (key r) k) df)).

(** The entry of key [k] in a grouped table. *)
Definition group_get {K} `{Key K} (k : K) (groups : list (K * Z)) : option Z :=
  option_map snd (find (fun y => same_key (fst y) k) groups).

Definition keys_lt {K} `{Key K} (a b : K * Z) : Prop :=
  key_compare (fst a) (fst b) = Lt.

(** The grouped sum over a key that every row has: the loop of
    [groupby_sum] without the test for a missing key. *)
Definition group_rows {K} `{Key K} (key : Row -> K) (value : Row -> option Z)
  (df : Dataset) : list (K * Z) :=
  fold_left (fun groups r => bucket_add (key r) (value r) groups) df [].

(** [table] partitions [df] by a key that every row has. *)
Definition rows_partition {K} `{Key K} (key : Row -> K) (df : Dataset)
  (table : list (K * Z)) : Prop :=
  NoDup (map fst table)
  /\ (forall r, In r df -> In (key r) (map fst table))
  /\ (forall k s, In (k, s) table ->
        (exists r, In r df /\ key r = k) /\ s = class_total key sales k df).

(** The row has key [k]. *)
Definition has_key {K} `{Key K} (key : Row -> option K) (k : K) (r : Row) : bool :=
  match key r with
  | Some k' => same_key k' k
  | None => false
  end.

(** The row has a key at all. *)
Definition keyed {K} (key : Row -> option K) (r : Row) : bool :=
  match key r with Some _ => true | None => false end.

Definition key_or {K} (d : K) (o : option K) : K :=
  match o with Some k => k | None => d end.

(** [table] partitions the rows of [df] that have a key: one group per key
    that occurs, no key twice, and each group holds the total of the sales
    of the rows of its key. *)
Definition groups_partition {K} `{Key K} (key : Row -> option K) (df : Dataset)
  (table : list (K * Z)) : Prop :=
  NoDup (map fst table)
  /\ (forall r k, In r df -> key r = Some k -> In k (map fst table))
  /\ (forall k s, In (k, s) table ->
        (exists r, In r df /\ key r = Some k)
        /\ s = total_sales (filter (has_key key k) df)).

(** The rows that have a date. *)
Definition has_date (r : Row) : bool := keyed date r.

Definition dated (df : Dataset) : Dataset := filter has_date df.

(** A table with a row whose date cell was blank. *)
Definition undated_rows : Dataset :=
  [ mkRow (Some (mkDate 2024 1 1)) (Some 100) (Some 10) "Product A" "Tashkent";
    mkRow None (Some 40) (Some 4) "Product A" "Tashkent" ].

(** C5 as the claim words it: for each of the four groupings the sums of
    the groups add up to the total of the table. *)
Definition grouped_sums_equal_total (df : Dataset) : Prop :=
  sum_of_groups (daily_sales df) = total_sales df
  /\ sum_of_groups (product_sales df) = total_sales df
  /\ sum_of_groups (region_sales df) = total_sales df
  /\ sum_of_groups (monthly_sales df) = total_sales df.

(** The sum of the magnitudes of a column. *)
Definition series_abs_sum (s : list (option Z)) : Z :=
  fold_right (fun v acc => match v with Some x => Z.abs x + acc | None => acc end) 0 s.

(** The amounts of the sales column are small enough for every sum pandas
    forms of them, in whatever order, to be exact: below 2^53 in magnitude
    an int64 sum does not wrap and a float64 sum is not rounded. *)
Definition sales_exact (df : Dataset) : Prop :=
  series_abs_sum (col sales df) < 2 ^ 53.

(** A sum that int64 and float64 both hold exactly. *)
Definition exact_in_pandas (z : Z) : Prop := - 2 ^ 53 < z < 2 ^ 53.

(** A key of a grouped table seen as a cell of the key column. *)
Definition as_cell {K} (entry : K * Z) : option K * Z := (Some (fst entry), snd entry).

(** [Series.dropna]: the values of a column that are present, in order. *)
Definition dropna {A} (s : list (option A)) : list A :=
  flat_map (fun x => match x with Some a => [a] | None => [] end) s.



(** The three clauses of C6 as the claim words them: zero at a zero total,
    the quotient at every other total, and no exception. *)
Definition avg_order_is_quotient (df : Dataset) : Prop :=
  (total_customers df = 0 -> avg_order_of df = Ok 0%Q)
  /\ (total_customers df <> 0 ->
      exists q, avg_order_of df = Ok q /\
                (q == inject_Z (total_sales df) / inject_Z (total_customers df))%Q)
  /\ (forall e, avg_order_of df <> Raise e).

Definition refund_rows : Dataset :=
  [ mkRow (Some (mkDate 2024 1 1)) (Some 100) (Some (-5)) "Product A" "Tashkent" ].

(** The test the date filter applies to a row once both ends are chosen. *)
Definition in_range (start end_ : Date) (r : Row) : bool :=
  match date r with
  | Some d => date_le start d && date_le d end_
  | None => false
  end.

(** Order of two dates by year, then month: the order of calendar months. *)
Definition month_compare (a b : Date) : comparison :=
  match year a ?= year b with
  | Eq => month a ?= month b
  | c => c
  end.

(** Bounds of a demo row that do not depend on its index. *)
Definition demo_bounds_full (r : Row) : Prop :=
  exists s c, sales r = Some s /\ customers r = Some c /\
              45000 <= s <= 96500 /\ 80 <= c <= 150.

(** An environment where every call succeeds and the sheet holds
    [example_rows]; and one where the row fetch is interrupted. *)
Definition env_sheet : Services :=
  mkServices unit unit unit unit unit unit
    (Ok tt) (Ok tt)
    (fun _ => Ok "{}")
    (fun _ => Ok tt) (fun _ _ => Ok tt) (fun _ => Ok tt) (fun _ _ => Ok tt)
    (fun _ => Ok tt) (fun _ => Ok tt) (fun _ => Ok example_rows).

Definition env_interrupted : Services :=
  mkServices unit unit unit unit unit unit
    (Ok tt) (Ok tt)
    (fun _ => Ok "{}")
    (fun _ => Ok tt) (fun _ _ => Ok tt) (fun _ => Ok tt) (fun _ _ => Ok tt)
    (fun _ => Ok tt)
    (fun _ => Raise (mk_exn KeyboardInterrupt EmptyString))
    (fun _ => Ok []).

(** The keys of a grouped table, computed from the key column alone. *)
Fixpoint key_add {K} `{Key K} (k : K) (keys : list K) : list K :=
  match keys with
  | [] => [k]
  | k' :: keys' =>
      match key_compare k k' with
      | Lt => k :: keys
      | Eq => keys
      | Gt => k' :: key_add k keys'
      end
  end.

Definition group_keys {K} `{Key K} (keys : list K) : list K :=
  fold_left (fun acc k => key_add k acc) keys [].

Definition months_2024 : list string :=
  ["2024-01"; "2024-02"; "2024-03"; "2024-04"; "2024-05"; "2024-06";
   "2024-07"; "2024-08"; "2024-09"; "2024-10"; "2024-11"; "2024-12"].

(** Equality test on the three outcomes of a comparison. *)
Definition comparison_eqb (a b : comparison) : bool :=
  match a, b with
  | Eq, Eq | Lt, Lt | Gt, Gt => true
  | _, _ => false
  end.

(* ===================================================================== *)
(** * Properties *)
(* ===================================================================== *)

(** ** Order on dates *)

Lemma date_le_iff a b : date_le a b = true <-> Date_le a b.
Proof.
  unfold date_le, date_compare, Date_le.
  destruct (Z.compare_spec (year a) (year b));
    destruct (Z.compare_spec (month a) (month b));
    destruct (Z.compare_spec (day a) (day b));
    split; intros; try discriminate; try reflexivity; lia.
Qed.

Lemma date_compare_eq a b : date_compare a b = Eq <-> a = b.
Proof.
  unfold date_compare. destruct a as [y m d], b as [y' m' d']; simpl.
  destruct (Z.compare_spec y y'); destruct (Z.compare_spec m m');
    destruct (Z.compare_spec d d');
    split; intros E; try discriminate; try (inversion E; lia);
    subst; reflexivity.
Qed.

Lemma date_compare_lt_trans a b c :
  date_compare a b = Lt -> date_compare b c = Lt -> date_compare a c = Lt.
Proof.
  unfold date_compare.
  destruct (Z.compare_spec (year a) (year b));
    destruct (Z.compare_spec (month a) (month b));
    destruct (Z.compare_spec (day a) (day b)); try discriminate;
    destruct (Z.compare_spec (year b) (year c));
    destruct (Z.compare_spec (month b) (month c));
    destruct (Z.compare_spec (day b) (day c)); try discriminate;
    intros _ _;
    destruct (Z.compare_spec (year a) (year c));
    destruct (Z.compare_spec (month a) (month c));
    destruct (Z.compare_spec (day a) (day c)); try reflexivity; lia.
Qed.

(** ** Boolean masks *)

Lemma series_and_map {A} (p q : A -> bool) (l : list A) :
  series_and (map p l) (map q l) = map (fun x => p x && q x) l.
Proof.
  induction l as [|x l IH]; simpl; [reflexivity | now rewrite IH].
Qed.

Lemma getitem_mask_map (p : Row -> bool) (df : Dataset) :
  getitem_mask df (map p df) = filter p df.
Proof.
  induction df as [|r df IH]; simpl; [reflexivity|].
  destruct (p r); now rewrite IH.
Qed.

Lemma date_filter_pair (a b : Date) (df : Dataset) :
  date_filter [a; b] df = filter (in_range a b) df.
Proof.
  unfold date_filter, series_ge, series_le, col; simpl.
  rewrite !map_map, series_and_map, getitem_mask_map.
  apply filter_ext. intros r. unfold in_range, date_ge.
  destruct (date r); reflexivity.
Qed.

Lemma in_range_iff (a b : Date) (r : Row) :
  in_range a b r = true <->
  exists d, date r = Some d /\ Date_le a d /\ Date_le d b.
Proof.
  unfold in_range. destruct (date r) as [d|].
  - rewrite andb_true_iff, !date_le_iff. split.
    + intros [H1 H2]. now exists d.
    + intros (d' & E & H1 & H2). injection E as <-. now split.
  - split; [discriminate|]. intros (d & E & _). discriminate.
Qed.

Lemma region_filter_specific (sel : string) (df : Dataset) :
  sel <> Barchasi ->
  region_filter sel df = filter (fun r => String.eqb (region r) sel) df.
Proof.
  intros Hsel. unfold region_filter, series_eq, col.
  destruct (String.eqb_spec sel Barchasi) as [E|_]; [contradiction|]; simpl.
  rewrite map_map. apply getitem_mask_map.
Qed.

(** Both filters only drop rows. *)
Lemma date_filter_incl dr df r : In r (date_filter dr df) -> In r df.
Proof.
  unfold date_filter. destruct (List.length dr =? 2)%nat; [|trivial].
  unfold series_ge, series_le, col. rewrite !map_map, series_and_map, getitem_mask_map.
  intros H. now apply filter_In in H.
Qed.

Lemma region_filter_incl sel df r : In r (region_filter sel df) -> In r df.
Proof.
  unfold region_filter. destruct (negb (sel =? Barchasi)%string); [|trivial].
  unfold series_eq, col. rewrite map_map, getitem_mask_map.
  intros H. now apply filter_In in H.
Qed.

(** ** Sums *)

Lemma series_sum_acc (s : list (option Z)) (acc : Z) :
  fold_left (fun a v => match v with Some x => a + x | None => a end) s acc
  = acc + series_sum s.
Proof.
  unfold series_sum.
  enough (G : forall a b,
    fold_left (fun a v => match v with Some x => a + x | None => a end) s (a + b)
    = a + fold_left (fun a v => match v with Some x => a + x | None => a end) s b).
  { specialize (G acc 0). now rewrite Z.add_0_r in G. }
  induction s as [|v s IH]; intros a b; simpl; [reflexivity|].
  destruct v as [x|]; [|apply IH].
  rewrite <- Z.add_assoc. apply IH.
Qed.

Lemma series_sum_cons (v : option Z) (s : list (option Z)) :
  series_sum (v :: s) = value_or_0 v + series_sum s.
Proof.
  unfold series_sum at 1; simpl. rewrite series_sum_acc. destruct v; simpl; lia.
Qed.

Lemma series_sum_nil : series_sum [] = 0.
Proof. reflexivity. Qed.

(** ** The guard of line 134 *)

Lemma avg_order_pos (ts tc : Z) :
  0 < tc ->
  avg_order ts tc = truediv ts tc
  /\ truediv ts tc = Ok (inject_Z ts / inject_Z tc)%Q.
Proof.
  intros Hpos. unfold avg_order, truediv.
  destruct (Z.gtb_spec tc 0); [|lia].
  destruct (Z.eqb_spec tc 0); [lia|]. split; reflexivity.
Qed.

Lemma avg_order_nonpos (ts tc : Z) : tc <= 0 -> avg_order ts tc = Ok 0%Q.
Proof.
  intros Hle. unfold avg_order. destruct (Z.gtb_spec tc 0); [lia | reflexivity].
Qed.

Lemma avg_order_total (ts tc : Z) (e : exn) : avg_order ts tc <> Raise e.
Proof.
  destruct (Z.lt_ge_cases 0 tc) as [Hpos|Hle].
  - destruct (avg_order_pos ts tc Hpos) as [-> ->]. discriminate.
  - rewrite avg_order_nonpos by lia. discriminate.
Qed.

Section Grouping.
Context {K : Type} `{Key K}.

Lemma sum_of_groups_cons (k : K) (z : Z) (g : list (K * Z)) :
  sum_of_groups ((k, z) :: g) = z + sum_of_groups g.
Proof. reflexivity. Qed.

Lemma sum_of_groups_bucket_add (k : K) (v : option Z) (g : list (K * Z)) :
  sum_of_groups (bucket_add k v g) = sum_of_groups g + value_or_0 v.
Proof.
  induction g as [|[k' s] g IH]; simpl.
  - unfold sum_of_groups; simpl. unfold value_or_0. lia.
  - destruct (key_compare k k').
    + rewrite !sum_of_groups_cons. unfold value_or_0. lia.
    + rewrite !sum_of_groups_cons. unfold value_or_0. lia.
    + rewrite !sum_of_groups_cons, IH. lia.
Qed.

Lemma sum_of_groups_fold (key : Row -> K) (value : Row -> option Z)
      (df : Dataset) (g : list (K * Z)) :
  sum_of_groups
    (fold_left (fun groups r => bucket_add (key r) (value r) groups) df g)
  = sum_of_groups g + series_sum (map value df).
Proof.
  revert g. induction df as [|r df IH]; intros g; simpl.
  - rewrite series_sum_nil. lia.
  - rewrite IH, sum_of_groups_bucket_add, series_sum_cons. lia.
Qed.

Lemma group_rows_total (key : Row -> K) (value : Row -> option Z) (df : Dataset) :
  sum_of_groups (group_rows key value df) = series_sum (col value df).
Proof.
  unfold group_rows, col. rewrite sum_of_groups_fold. reflexivity.
Qed.

(** *** Sorting by value *)

Lemma insert_by_value_perm (x : K * Z) (l : list (K * Z)) :
  Permutation (x :: l) (insert_by_value x l).
Proof.
  induction l as [|y l IH]; simpl; [apply Permutation_refl|].
  destruct (snd x <=? snd y); [apply Permutation_refl|].
  eapply perm_trans; [apply perm_swap|]. now apply perm_skip.
Qed.

Lemma sort_values_perm (l : list (K * Z)) : Permutation l (sort_values l).
Proof.
  induction l as [|x l IH]; simpl; [constructor|].
  eapply perm_trans; [apply perm_skip, IH | apply insert_by_value_perm].
Qed.

Lemma insert_by_value_sorted (x : K * Z) (l : list (K * Z)) :
  StronglySorted value_le l -> StronglySorted value_le (insert_by_value x l).
Proof.
  induction 1 as [|y l Hl IH Hy]; simpl.
  - repeat constructor.
  - destruct (Z.leb_spec (snd x) (snd y)) as [Hxy|Hxy].
    + constructor; [now constructor|].
      constructor; [exact Hxy|].
      eapply Forall_impl; [|exact Hy].
      unfold value_le; intros; lia.
    + constructor; [exact IH|].
      eapply Permutation_Forall; [apply insert_by_value_perm|].
      constructor; [unfold value_le; lia | exact Hy].
Qed.

Lemma sort_values_sorted (l : list (K * Z)) :
  StronglySorted value_le (sort_values l).
Proof.
  induction l as [|x l IH]; simpl; [constructor|].
  now apply insert_by_value_sorted.
Qed.

Lemma sum_of_groups_perm (l l' : list (K * Z)) :
  Permutation l l' -> sum_of_groups l = sum_of_groups l'.
Proof.
  induction 1 as [|[k z] l l' _ IH|[k z] [k' z'] l|l l' l'' _ IH1 _ IH2].
  - reflexivity.
  - rewrite !sum_of_groups_cons. lia.
  - rewrite !sum_of_groups_cons. lia.
  - lia.
Qed.

End Grouping.

(* ===================================================================== *)
(** ** The filters (lines 104-112) *)
(* ===================================================================== *)

(** C3.  With both ends of the range chosen, the date filter keeps exactly
    the rows dated from [start] to [end_], both ends included, in their
    order and with their multiplicity (a row without a date is not in any
    range); with a single endpoint (or none) the table is left as it is.
    The ordering premise [start <= end_] of the claim is not needed. *)
Theorem date_filter_inclusive_range (df : Dataset) (start end_ single : Date) :
  date_filter [start; end_] df
    = filter (fun r => match date r with
                       | Some d => date_le start d && date_le d end_
                       | None => false
                       end) df
  /\ (forall r, In r (date_filter [start; end_] df) <->
                In r df /\ exists d, date r = Some d
                                     /\ Date_le start d /\ Date_le d end_)
  /\ date_filter [single] df = df
  /\ date_filter [] df = df.
Proof.
  split; [apply date_filter_pair|]. split; [|split; reflexivity].
  intros r. rewrite date_filter_pair, filter_In, in_range_iff. reflexivity.
Qed.

(** C4.  Selecting the sentinel 'Barchasi' returns the table unchanged;
    selecting any other label keeps exactly the rows of that region; a label
    that no row carries gives the empty table.  The filter is a total
    function: there is no error case. *)
Theorem region_filter_spec (df : Dataset) (selected_region : string) :
  region_filter Barchasi df = df
  /\ (selected_region <> Barchasi ->
      region_filter selected_region df
        = filter (fun r => String.eqb (region r) selected_region) df
      /\ (forall r, In r (region_filter selected_region df) <->
                    In r df /\ region r = selected_region))
  /\ (selected_region <> Barchasi ->
      (forall r, In r df -> region r <> selected_region) ->
      region_filter selected_region df = []).
Proof.
  split; [reflexivity|]. split.
  - intros Hsel. rewrite (region_filter_specific _ _ Hsel). split; [reflexivity|].
    intros r. rewrite filter_In, String.eqb_eq. reflexivity.
  - intros Hsel Habs. rewrite (region_filter_specific _ _ Hsel).
    induction df as [|r df IH]; simpl; [reflexivity|].
    destruct (String.eqb_spec (region r) selected_region) as [E|_].
    + exfalso. apply (Habs r); [now left | exact E].
    + apply IH. intros r' Hr'. apply Habs. now right.
Qed.

Lemma region_filter_spec_witness :
  region_filter "Tashkent" example_rows
    = [ mkRow (Some (mkDate 2024 1 1)) (Some 50000) (Some 100) "Product A" "Tashkent";
        mkRow (Some (mkDate 2024 1 3)) (Some 50210) (Some 120) "Product A" "Tashkent" ]
  /\ region_filter "Fergana" example_rows = [].
Proof.
  split.
  - destruct (region_filter_spec example_rows "Tashkent") as (_ & H & _).
    destruct H as [H _]; [discriminate|]. rewrite H. reflexivity.
  - destruct (region_filter_spec example_rows "Fergana") as (_ & _ & H).
    apply H; [discriminate|].
    intros r [E|[E|[E|[]]]]; subst r; discriminate.
Defined.

(* ===================================================================== *)
(** ** Random draws *)
(* ===================================================================== *)

Lemma advance_0 w : advance 0 w = w.
Proof.
  destruct w as [[t p] sb cl]; unfold advance; simpl. now rewrite Nat.add_0_r.
Qed.

Lemma advance_advance j k w : advance k (advance j w) = advance (j + k) w.
Proof. unfold advance; simpl. now rewrite Nat.add_assoc. Qed.

Lemma randbelow_run n w :
  randbelow n w = (Ok (draw_at w (consumed (random_state w)) mod n), advance 1 w).
Proof. unfold randbelow, advance, draw_at. now rewrite Nat.add_1_r. Qed.

Lemma randint_run a b w :
  randint a b w
  = (Ok (a + draw_at w (consumed (random_state w)) mod (b + 1 - a)), advance 1 w).
Proof. unfold randint, bind. rewrite randbelow_run. reflexivity. Qed.

Lemma randint_range a b u : a <= b -> a <= a + u mod (b + 1 - a) <= b.
Proof.
  intros Hab. pose proof (Z.mod_pos_bound u (b + 1 - a)). lia.
Qed.

Lemma choice_run {A} (seq : list A) (d : A) w :
  seq <> [] ->
  choice seq w
  = (Ok (nth (Z.to_nat (draw_at w (consumed (random_state w))
                        mod Z.of_nat (List.length seq))) seq d),
     advance 1 w).
Proof.
  intros Hne. destruct seq as [|x seq']; [contradiction|].
  unfold choice, bind. rewrite randbelow_run.
  set (l := x :: seq') in *.
  set (u := draw_at w (consumed (random_state w)) mod Z.of_nat (List.length l)).
  assert (Hu : 0 <= u < Z.of_nat (List.length l)).
  { apply Z.mod_pos_bound. subst l; simpl List.length. lia. }
  destruct (nth_error l (Z.to_nat u)) as [y|] eqn:E.
  - unfold ret. f_equal. f_equal. symmetry. now apply nth_error_nth.
  - apply nth_error_None in E. lia.
Qed.

(** A list comprehension over [range] whose body makes one draw. *)
Lemma mapM_draws {B} (f : Z -> M B) (g : Z -> Z -> B) :
  (forall i w, f i w = (Ok (g i (draw_at w (consumed (random_state w)))), advance 1 w)) ->
  forall len a w,
    mapM f (map Z.of_nat (seq a len)) w
    = (Ok (map (fun k => g (Z.of_nat k)
                          (draw_at w (consumed (random_state w) + k - a)))
               (seq a len)),
       advance len w).
Proof.
  intros Hf. induction len as [|len IH]; intros a w; simpl.
  - unfold ret. now rewrite advance_0.
  - unfold bind. rewrite Hf, IH. unfold ret.
    rewrite advance_advance. f_equal. f_equal. f_equal.
    + f_equal. f_equal. lia.
    + apply map_ext_in. intros k Hk. apply in_seq in Hk.
      unfold draw_at, advance; simpl. f_equal. f_equal. lia.
Qed.

Lemma mapM_range_draws {B} (f : Z -> M B) (g : Z -> Z -> B) :
  (forall i w, f i w = (Ok (g i (draw_at w (consumed (random_state w)))), advance 1 w)) ->
  forall len w,
    mapM f (range len) w
    = (Ok (map (fun k => g (Z.of_nat k)
                          (draw_at w (consumed (random_state w) + k)))
               (seq 0 len)),
       advance len w).
Proof.
  intros Hf len w. unfold range. rewrite (mapM_draws f g Hf).
  f_equal. f_equal. apply map_ext. intros k. now rewrite Nat.sub_0_r.
Qed.

(* ===================================================================== *)
(** ** The calendar of the demo data *)
(* ===================================================================== *)

Lemma date_range_2024 : date_range "2024-01-01" "2024-12-31" = Ok dates_2024.
Proof. vm_compute. reflexivity. Qed.

Lemma dates_2024_length : List.length dates_2024 = 366%nat.
Proof. vm_compute. reflexivity. Qed.

Lemma days_from_nth (n : nat) (e : Date) :
  forall (d : Date) (k : nat),
    (k < List.length (days_from n d e))%nat ->
    nth k (days_from n d e) first_day = Nat.iter k next_day d.
Proof.
  induction n as [|n IH]; intros d k Hk; simpl in *; [lia|].
  destruct (date_le d e); simpl in *; [|lia].
  destruct k as [|k]; [reflexivity|].
  rewrite IH by lia. now rewrite Nat.iter_succ_r.
Qed.

Lemma dates_2024_nth (k : nat) :
  (k < 366)%nat -> nth k dates_2024 first_day = Nat.iter k next_day first_day.
Proof.
  intros Hk. apply days_from_nth. fold dates_2024. rewrite dates_2024_length. exact Hk.
Qed.

Lemma map_nth_seq {A} (l : list A) (d : A) :
  map (fun k => nth k l d) (seq 0 (List.length l)) = l.
Proof.
  induction l as [|x l IH]; simpl; [reflexivity|].
  f_equal. rewrite <- seq_shift, map_map. exact IH.
Qed.

(** Every entry is a real day of the range ... *)
Lemma dates_2024_sound (d : Date) :
  In d dates_2024 ->
  valid_date d = true /\ Date_le first_day d /\ Date_le d last_day.
Proof.
  intros Hin.
  assert (H : forallb (fun d => valid_date d && date_le first_day d && date_le d last_day)
                      dates_2024 = true) by (vm_compute; reflexivity).
  rewrite forallb_forall in H. specialize (H d Hin).
  apply andb_prop in H. destruct H as [H H3].
  apply andb_prop in H. destruct H as [H1 H2].
  now rewrite <- !date_le_iff.
Qed.

(** ... and every day of the range is an entry. *)
Lemma dates_2024_complete (d : Date) :
  valid_date d = true -> Date_le first_day d -> Date_le d last_day ->
  In d dates_2024.
Proof.
  intros Hv Ha Hb.
  assert (H : forallb (fun m => forallb (fun dd =>
                let x := mkDate 2024 (Z.of_nat m) (Z.of_nat dd) in
                negb (valid_date x) || existsb (date_eqb x) dates_2024)
                (seq 1 31)) (seq 1 12) = true) by (vm_compute; reflexivity).
  destruct d as [y m dd]. unfold Date_le, first_day, last_day in Ha, Hb; simpl in Ha, Hb.
  assert (Hy : y = 2024) by lia. subst y.
  unfold valid_date in Hv; simpl in Hv.
  apply andb_prop in Hv. destruct Hv as [Hv H4].
  apply andb_prop in Hv. destruct Hv as [Hv H3].
  apply andb_prop in Hv. destruct Hv as [H1 H2].
  apply Z.leb_le in H1, H2, H3. pose proof H4 as H4'. apply Z.leb_le in H4'.
  assert (Hdim : days_in_month 2024 m <= 31).
  { unfold days_in_month.
    destruct (m =? 2); [destruct (is_leap 2024); lia|].
    destruct ((m =? 4) || (m =? 6) || (m =? 9) || (m =? 11)); lia. }
  rewrite forallb_forall in H.
  specialize (H (Z.to_nat m)). rewrite in_seq in H.
  assert (Hm : forallb (fun dd0 =>
             let x := mkDate 2024 (Z.of_nat (Z.to_nat m)) (Z.of_nat dd0) in
             negb (valid_date x) || existsb (date_eqb x) dates_2024) (seq 1 31) = true)
    by (apply H; lia).
  rewrite forallb_forall in Hm.
  specialize (Hm (Z.to_nat dd)). rewrite in_seq in Hm.
  assert (Hd : negb (valid_date (mkDate 2024 (Z.of_nat (Z.to_nat m)) (Z.of_nat (Z.to_nat dd))))
               || existsb (date_eqb (mkDate 2024 (Z.of_nat (Z.to_nat m)) (Z.of_nat (Z.to_nat dd))))
                          dates_2024 = true)
    by (apply Hm; lia).
  rewrite !Z2Nat.id in Hd by lia.
  assert (Hvalid : valid_date (mkDate 2024 m dd) = true).
  { unfold valid_date; simpl.
    apply andb_true_intro; split; [|exact H4].
    apply andb_true_intro; split; [|now apply Z.leb_le].
    apply andb_true_intro; split; now apply Z.leb_le. }
  rewrite Hvalid in Hd. apply orb_prop in Hd. destruct Hd as [Hd|Hd]; [discriminate|].
  apply existsb_exists in Hd. destruct Hd as (x & Hx & Hxe).
  unfold date_eqb in Hxe.
  destruct (date_compare (mkDate 2024 m dd) x) eqn:E; try discriminate.
  apply date_compare_eq in E. now subst x.
Qed.

(** No day occurs twice. *)
Lemma dates_2024_NoDup : NoDup dates_2024.
Proof.
  assert (H : forall n e d,
             StronglySorted (fun a b => date_compare a b = Lt) (days_from n d e) ->
             NoDup (days_from n d e)).
  { intros n e d Hs. induction Hs as [|x l Hl IH Hx]; constructor; [|exact IH].
    intros Hin. rewrite Forall_forall in Hx. specialize (Hx x Hin).
    assert (E : date_compare x x = Eq) by now apply date_compare_eq.
    congruence. }
  apply H. apply Sorted_StronglySorted.
  - intros a b c. apply date_compare_lt_trans.
  - assert (Hc : forall n e d,
               (forall x, In x (days_from n d e) -> valid_date x = true) ->
               Sorted (fun a b => date_compare a b = Lt) (days_from n d e)).
    { clear. induction n as [|n IH]; intros e d Hv; simpl in *; [constructor|].
      destruct (date_le d e) eqn:Hle; [|constructor].
      constructor.
      - apply IH. intros x Hx. apply Hv. now right.
      - assert (Hd : valid_date d = true) by (apply Hv; now left).
        destruct n as [|n]; simpl; [constructor|].
        destruct (date_le (next_day d) e); constructor.
        clear - Hd. unfold valid_date in Hd.
        apply andb_prop in Hd. destruct Hd as [Hd H4].
        apply andb_prop in Hd. destruct Hd as [Hd H3].
        apply andb_prop in Hd. destruct Hd as [H1 H2].
        apply Z.leb_le in H1, H2, H3, H4.
        unfold next_day, date_compare.
        destruct (Z.ltb_spec (day d) (days_in_month (year d) (month d))); simpl.
        + rewrite !Z.compare_refl. apply Z.compare_lt_iff. lia.
        + destruct (Z.ltb_spec (month d) 12); simpl.
          * rewrite Z.compare_refl. 
            assert (E : (month d ?= month d + 1) = Lt) by (apply Z.compare_lt_iff; lia).
            now rewrite E.
          * assert (E : (year d ?= year d + 1) = Lt) by (apply Z.compare_lt_iff; lia).
            now rewrite E. }
    apply Hc. intros x Hx. now apply dates_2024_sound.
Qed.

(* ===================================================================== *)
(** ** What [create_demo_data] returns *)
(* ===================================================================== *)

Lemma zip_columns_map {I} (fd : I -> Date) (fs fc : I -> Z) (fp fr : I -> string)
      (l : list I) :
  zip_columns (map fd l) (map fs l) (map fc l) (map fp l) (map fr l)
  = map (fun i => mkRow (Some (fd i)) (Some (fs i)) (Some (fc i)) (fp i) (fr i)) l.
Proof.
  induction l as [|i l IH]; simpl; [reflexivity | now rewrite IH].
Qed.

Lemma draw_at_advance j w p : draw_at (advance j w) p = draw_at w p.
Proof. reflexivity. Qed.

Lemma consumed_advance j w :
  consumed (random_state (advance j w)) = (consumed (random_state w) + j)%nat.
Proof. reflexivity. Qed.

Lemma create_demo_data_run (w : World) :
  create_demo_data w = (Ok (map (demo_row w) (seq 0 366)), advance 1464 w).
Proof.
  unfold create_demo_data.
  unfold bind at 1. unfold lift at 1. rewrite date_range_2024.
  rewrite dates_2024_length.
  unfold bind at 1.
  rewrite (mapM_range_draws _
             (fun i u => 50000 + i * 100 + (-5000 + u mod 15001)))
    by (intros i w'; unfold bind; rewrite randint_run; reflexivity).
  unfold bind at 1.
  rewrite (mapM_range_draws _ (fun _ u => 100 + (-20 + u mod 71)))
    by (intros i w'; unfold bind; rewrite randint_run; reflexivity).
  unfold bind at 1.
  rewrite (mapM_range_draws _
             (fun _ u => nth (Z.to_nat (u mod 4)) products EmptyString))
    by (intros i w'; rewrite (choice_run products EmptyString) by discriminate; reflexivity).
  unfold bind at 1.
  rewrite (mapM_range_draws _
             (fun _ u => nth (Z.to_nat (u mod 4)) regions EmptyString))
    by (intros i w'; rewrite (choice_run regions EmptyString) by discriminate; reflexivity).
  rewrite !advance_advance. change (366 + 366 + 366 + 366)%nat with 1464%nat.
  unfold lift, DataFrame_of_columns.
  rewrite !length_map, !length_seq, dates_2024_length.
  change ((366 =? 366)%nat && (366 =? 366)%nat && (366 =? 366)%nat && (366 =? 366)%nat)
    with true. cbv iota.
  match goal with
  | |- (Ok ?a, _) = (Ok ?b, _) => assert (E : a = b); [|now rewrite E]
  end.
  rewrite <- (map_nth_seq dates_2024 first_day) at 1.
  rewrite dates_2024_length, zip_columns_map.
  apply map_ext. intros k. unfold demo_row.
  rewrite !draw_at_advance, !consumed_advance.
  repeat f_equal; lia.
Qed.

Lemma demo_rows_length (w : World) : List.length (map (demo_row w) (seq 0 366)) = 366%nat.
Proof. now rewrite length_map, length_seq. Qed.

Lemma demo_rows_dates (w : World) :
  col date (map (demo_row w) (seq 0 366)) = map Some dates_2024.
Proof.
  unfold col. rewrite map_map.
  rewrite <- (map_nth_seq dates_2024 first_day) at 1.
  rewrite dates_2024_length, map_map. apply map_ext. intros k. reflexivity.
Qed.

Lemma NoDup_map_Some {A} (l : list A) : NoDup l -> NoDup (map Some l).
Proof.
  induction 1 as [|x l Hx _ IH]; simpl; constructor; [|exact IH].
  rewrite in_map_iff. intros (y & E & Hy). injection E as ->. contradiction.
Qed.

Lemma demo_rows_nth (w : World) (i : nat) :
  (i < 366)%nat -> nth_error (map (demo_row w) (seq 0 366)) i = Some (demo_row w i).
Proof.
  intros Hi. rewrite nth_error_map, nth_error_seq.
  destruct (Nat.ltb_spec i 366); [reflexivity | lia].
Qed.

Lemma demo_rows_nth_inv (w : World) (i : nat) (r : Row) :
  nth_error (map (demo_row w) (seq 0 366)) i = Some r ->
  (i < 366)%nat /\ r = demo_row w i.
Proof.
  intros H.
  assert (Hi : (i < 366)%nat).
  { rewrite <- (demo_rows_length w). apply nth_error_Some. congruence. }
  rewrite (demo_rows_nth w i Hi) in H. inversion H. now split.
Qed.

Lemma nth_in_nonempty {A} (l : list A) (d : A) (u : Z) :
  l <> [] -> In (nth (Z.to_nat (u mod Z.of_nat (List.length l))) l d) l.
Proof.
  intros Hne. apply nth_In.
  assert (0 < Z.of_nat (List.length l)) by (destruct l; [contradiction | simpl List.length; lia]).
  pose proof (Z.mod_pos_bound u (Z.of_nat (List.length l))). lia.
Qed.

(** Turning a wanted label into the draw that selects it. *)
Lemma label_index (l : list string) (x : string) :
  In x l -> exists j, 0 <= j < Z.of_nat (List.length l) /\ nth (Z.to_nat j) l EmptyString = x.
Proof.
  intros Hin. destruct (In_nth l x EmptyString Hin) as (n & Hn & Hx).
  exists (Z.of_nat n). rewrite Nat2Z.id. split; [lia | exact Hx].
Qed.

Lemma demo_row_with_draws (i : nat) (a b c d : Z) :
  (i < 366)%nat ->
  demo_row (world_with_draws i a b c d) i
  = mkRow (Some (nth i dates_2024 first_day))
          (Some (50000 + Z.of_nat i * 100 + (-5000 + a mod 15001)))
          (Some (100 + (-20 + b mod 71)))
          (nth (Z.to_nat (c mod 4)) products EmptyString)
          (nth (Z.to_nat (d mod 4)) regions EmptyString).
Proof.
  intros Hi. unfold demo_row, draw_at, world_with_draws. cbn [random_state tape consumed].
  rewrite !Nat.add_0_l.
  rewrite Nat.eqb_refl.
  replace (366 + i =? i)%nat with false by (symmetry; apply Nat.eqb_neq; lia).
  rewrite Nat.eqb_refl.
  replace (732 + i =? i)%nat with false by (symmetry; apply Nat.eqb_neq; lia).
  replace (732 + i =? 366 + i)%nat with false by (symmetry; apply Nat.eqb_neq; lia).
  rewrite Nat.eqb_refl.
  replace (1098 + i =? i)%nat with false by (symmetry; apply Nat.eqb_neq; lia).
  replace (1098 + i =? 366 + i)%nat with false by (symmetry; apply Nat.eqb_neq; lia).
  replace (1098 + i =? 732 + i)%nat with false by (symmetry; apply Nat.eqb_neq; lia).
  rewrite Nat.eqb_refl.
  reflexivity.
Qed.

(** [randint(a, b)] adds [a] to the outcome of [_randbelow(b + 1 - a)]. *)
Lemma randint_evenly_spread (a b : Z) :
  a <= b -> evenly_spread (b + 1 - a) (fun u => a + u) (fun v => a <= v <= b).
Proof.
  intros Hab. split.
  - intros u Hu. lia.
  - intros v Hv. exists (v - a). split; [lia|]. intros u' [_ Hu']. lia.
Qed.

(** [choice] indexes the list by the outcome of [_randbelow(len(seq))]. *)
Lemma choice_evenly_spread (l : list string) :
  NoDup l ->
  evenly_spread (Z.of_nat (List.length l)) (fun u => nth (Z.to_nat u) l EmptyString)
                (fun x => In x l).
Proof.
  intros Hnd. split.
  - intros u Hu. apply nth_In. lia.
  - intros x Hx. destruct (In_nth l x EmptyString Hx) as (n & Hn & En).
    exists (Z.of_nat n). split.
    + rewrite Nat2Z.id. split; [lia | exact En].
    + intros u' [Hu' Eu'].
      assert (E : Z.to_nat u' = n).
      { apply (proj1 (NoDup_nth l EmptyString) Hnd); [lia | exact Hn | congruence]. }
      lia.
Qed.

Lemma products_NoDup : NoDup products.
Proof. unfold products. repeat constructor; simpl; intuition discriminate. Qed.

Lemma regions_NoDup : NoDup regions.
Proof. unfold regions. repeat constructor; simpl; intuition discriminate. Qed.

(** C2.  In every world [create_demo_data] returns a table with one row per
    day of 2024-01-01 .. 2024-12-31: 366 rows, dated by the successive days
    from the first, no day twice, every day of the range present.  Row [i]
    has [sales = 50000 + 100*i + noise] with the noise a [randint] draw in
    [-5000, 10000], [customers = 100 + noise] with the noise a [randint]
    draw in [-20, 50], and a product and a region chosen among the four
    labels of [products] and [regions].  "Uniformly at random" is stated for
    the generator as modelled: each value comes from exactly one outcome of
    [_randbelow], and every combination of values is produced in some state
    of the generator. *)
Theorem create_demo_data_spec :
  (forall w : World,
    exists df w',
      create_demo_data w = (Ok df, w')
      /\ List.length df = 366%nat
      /\ NoDup (col date df)
      /\ (forall c, In c (col date df) <->
                    exists d, c = Some d /\ valid_date d = true
                              /\ Date_le first_day d /\ Date_le d last_day)
      /\ (forall i, (i < 366)%nat ->
          exists r noise_s noise_c,
            nth_error df i = Some r
            /\ date r = Some (Nat.iter i next_day first_day)
            /\ sales r = Some (50000 + 100 * Z.of_nat i + noise_s)
            /\ noise_s = -5000 + draw_at w (consumed (random_state w) + i) mod 15001
            /\ -5000 <= noise_s <= 10000
            /\ customers r = Some (100 + noise_c)
            /\ noise_c = -20 + draw_at w (consumed (random_state w) + 366 + i) mod 71
            /\ -20 <= noise_c <= 50
            /\ In (product r) products
            /\ In (region r) regions))
  /\ (List.length products = 4%nat /\ NoDup products)
  /\ (List.length regions = 4%nat /\ NoDup regions)
  /\ (evenly_spread 15001 (fun u => -5000 + u) (fun v => -5000 <= v <= 10000)
      /\ evenly_spread 71 (fun u => -20 + u) (fun v => -20 <= v <= 50)
      /\ evenly_spread 4 (fun u => nth (Z.to_nat u) products EmptyString) (fun p => In p products)
      /\ evenly_spread 4 (fun u => nth (Z.to_nat u) regions EmptyString) (fun r => In r regions))
  /\ (forall i noise_s noise_c p r,
        (i < 366)%nat ->
        -5000 <= noise_s <= 10000 -> -20 <= noise_c <= 50 ->
        In p products -> In r regions ->
        exists w df w',
          create_demo_data w = (Ok df, w')
          /\ nth_error df i
             = Some (mkRow (Some (Nat.iter i next_day first_day))
                           (Some (50000 + 100 * Z.of_nat i + noise_s))
                           (Some (100 + noise_c)) p r)).
Proof.
  split; [|split; [|split; [|split]]].
  - intros w. exists (map (demo_row w) (seq 0 366)), (advance 1464 w).
    split; [apply create_demo_data_run|].
    split; [apply demo_rows_length|].
    rewrite demo_rows_dates.
    split; [apply NoDup_map_Some, dates_2024_NoDup|].
    split.
    { intros c. rewrite in_map_iff. split.
      - intros (d & <- & Hd). exists d. split; [reflexivity|].
        now apply dates_2024_sound.
      - intros (d & -> & Hv & Ha & Hb). exists d. split; [reflexivity|].
        now apply dates_2024_complete. }
    intros i Hi.
    exists (demo_row w i),
           (-5000 + draw_at w (consumed (random_state w) + i) mod 15001),
           (-20 + draw_at w (consumed (random_state w) + 366 + i) mod 71).
    split; [now apply demo_rows_nth|].
    split; [unfold demo_row; cbn [date]; f_equal; now apply dates_2024_nth|].
    split; [unfold demo_row; cbn [sales]; f_equal; lia|].
    split; [reflexivity|].
    split; [apply (randint_range (-5000) 10000); lia|].
    split; [reflexivity|].
    split; [reflexivity|].
    split; [apply (randint_range (-20) 50); lia|].
    split.
    + apply (nth_in_nonempty products). discriminate.
    + apply (nth_in_nonempty regions). discriminate.
  - split; [reflexivity | apply products_NoDup].
  - split; [reflexivity | apply regions_NoDup].
  - split; [apply (randint_evenly_spread (-5000) 10000); lia|].
    split; [apply (randint_evenly_spread (-20) 50); lia|].
    split; [apply (choice_evenly_spread products products_NoDup)|].
    apply (choice_evenly_spread regions regions_NoDup).
  - intros i noise_s noise_c p r Hi Hs Hc Hp Hr.
    destruct (label_index products p Hp) as (jp & Hjp & Ep).
    destruct (label_index regions r Hr) as (jr & Hjr & Er).
    change (Z.of_nat (List.length products)) with 4 in Hjp.
    change (Z.of_nat (List.length regions)) with 4 in Hjr.
    exists (world_with_draws i (noise_s + 5000) (noise_c + 20) jp jr).
    eexists. eexists. split; [apply create_demo_data_run|].
    rewrite (demo_rows_nth _ i Hi), (demo_row_with_draws _ _ _ _ _ Hi).
    rewrite (dates_2024_nth i Hi).
    rewrite !Z.mod_small by lia. rewrite Ep, Er.
    f_equal. f_equal; f_equal; lia.
Qed.

(** Row 59 of the demo table is the leap day; and some state of the
    generator makes it the row with the largest noise on both counts. *)
Lemma create_demo_data_spec_witness :
  (exists df w' r,
     create_demo_data world0 = (Ok df, w')
     /\ nth_error df 59 = Some r
     /\ date r = Some (mkDate 2024 2 29)
     /\ In (product r) products)
  /\ (exists w df w',
        create_demo_data w = (Ok df, w')
        /\ nth_error df 59
           = Some (mkRow (Some (mkDate 2024 2 29)) (Some 65900) (Some 150)
                         "Product D" "Fergana")).
Proof.
  destruct create_demo_data_spec as (Hall & _ & _ & _ & Hsome).
  split.
  - destruct (Hall world0) as (df & w' & Hrun & _ & _ & _ & Hrow).
    destruct (Hrow 59%nat) as (r & ns & nc & Hr & Hd & _ & _ & _ & _ & _ & _ & Hp & _);
      [lia|].
    exists df, w', r. repeat split; assumption.
  - destruct (Hsome 59%nat 10000 50 "Product D" "Fergana") as (w & df & w' & Hrun & Hr);
      [lia | lia | lia | simpl; tauto | simpl; tauto |].
    exists w, df, w'. split; assumption.
Defined.

(* ===================================================================== *)
(** ** Bounds on the demo data *)
(* ===================================================================== *)

Lemma demo_row_bounds (w : World) (i : nat) :
  exists s c,
    sales (demo_row w i) = Some s /\ customers (demo_row w i) = Some c
    /\ 45000 + 100 * Z.of_nat i <= s <= 60000 + 100 * Z.of_nat i
    /\ 80 <= c <= 150.
Proof.
  unfold demo_row; cbn [sales customers].
  eexists. eexists. split; [reflexivity|]. split; [reflexivity|].
  pose proof (randint_range (-5000) 10000
                (draw_at w (consumed (random_state w) + i))).
  pose proof (randint_range (-20) 50
                (draw_at w (consumed (random_state w) + 366 + i))).
  change (10000 + 1 - -5000) with 15001 in *.
  change (50 + 1 - -20) with 71 in *.
  lia.
Qed.

Lemma total_customers_lower (v : Dataset) :
  Forall demo_bounds v -> 80 * Z.of_nat (List.length v) <= total_customers v.
Proof.
  unfold total_customers, col.
  induction 1 as [|r v (s & c & _ & Hc & _ & Hb) _ IH].
  - simpl. rewrite series_sum_nil. lia.
  - cbn [map List.length]. rewrite series_sum_cons, Hc. simpl value_or_0. lia.
Qed.

Lemma total_customers_positive (v : Dataset) :
  v <> [] -> Forall demo_bounds v -> 0 < total_customers v.
Proof.
  intros Hne Hall. pose proof (total_customers_lower v Hall).
  destruct v; [contradiction | simpl List.length in *; lia].
Qed.

(** C10.  Every row of the demo table has [80 <= customers <= 150] and
    [sales >= 45000 + 100*i] at index [i].  Hence any non-empty table made
    of rows of the demo table, the output of the two filters in particular,
    has a positive total of customers, and line 134 takes the division
    branch there. *)
Theorem demo_data_bounds (w : World) :
  exists df w',
    create_demo_data w = (Ok df, w')
    /\ (forall i r, nth_error df i = Some r ->
        exists s c,
          sales r = Some s /\ customers r = Some c
          /\ 80 <= c <= 150 /\ 45000 + 100 * Z.of_nat i <= s)
    /\ (forall v : Dataset,
          v <> [] -> incl v df ->
          0 < total_customers v
          /\ avg_order_of v
             = Ok (inject_Z (total_sales v) / inject_Z (total_customers v))%Q)
    /\ (forall date_range selected_region,
          region_filter selected_region (date_filter date_range df) <> [] ->
          0 < total_customers (region_filter selected_region (date_filter date_range df))
          /\ avg_order_of (region_filter selected_region (date_filter date_range df))
             = Ok (inject_Z (total_sales
                               (region_filter selected_region (date_filter date_range df)))
                   / inject_Z (total_customers
                                 (region_filter selected_region (date_filter date_range df))))%Q).
Proof.
  exists (map (demo_row w) (seq 0 366)), (advance 1464 w).
  split; [apply create_demo_data_run|].
  assert (Hrows : forall r, In r (map (demo_row w) (seq 0 366)) -> demo_bounds r).
  { intros r Hr. apply in_map_iff in Hr. destruct Hr as (i & <- & _).
    destruct (demo_row_bounds w i) as (s & c & Hs & Hc & Hsb & Hcb).
    exists s, c. repeat split; try assumption; lia. }
  assert (Hpos : forall v, v <> [] -> incl v (map (demo_row w) (seq 0 366)) ->
                           0 < total_customers v).
  { intros v Hne Hincl. apply total_customers_positive; [exact Hne|].
    apply Forall_forall. intros r Hr. apply Hrows, Hincl, Hr. }
  split; [|split].
  - intros i r Hr. apply demo_rows_nth_inv in Hr. destruct Hr as [_ ->].
    destruct (demo_row_bounds w i) as (s & c & Hs & Hc & Hsb & Hcb).
    exists s, c. repeat split; try assumption; lia.
  - intros v Hne Hincl. pose proof (Hpos v Hne Hincl) as H.
    split; [exact H|]. unfold avg_order_of.
    destruct (avg_order_pos (total_sales v) _ H) as [-> ->]. reflexivity.
  - intros dr sel Hne.
    assert (H : 0 < total_customers (region_filter sel (date_filter dr (map (demo_row w) (seq 0 366))))).
    { apply Hpos; [exact Hne|]. intros r Hr.
      eapply date_filter_incl, region_filter_incl, Hr. }
    split; [exact H|]. unfold avg_order_of.
    destruct (avg_order_pos (total_sales (region_filter sel (date_filter dr
                (map (demo_row w) (seq 0 366))))) _ H) as [-> ->]. reflexivity.
Qed.

(** The first week of March in Tashkent, in the demo table of [world0]. *)
Lemma demo_data_bounds_witness :
  exists df w',
    create_demo_data world0 = (Ok df, w')
    /\ 0 < total_customers
             (region_filter "Tashkent"
                (date_filter [mkDate 2024 3 1; mkDate 2024 3 7] df)).
Proof.
  destruct (demo_data_bounds world0) as (df & w' & Hrun & _ & _ & Hf).
  exists df, w'. split; [exact Hrun|].
  apply Hf.
  pose proof (create_demo_data_run world0) as E. rewrite Hrun in E.
  injection E as -> _.
  vm_compute. discriminate.
Defined.

(* ===================================================================== *)
(** ** Outcomes of the acquisition *)
(* ===================================================================== *)

Lemma after_after (w : World) (n1 n2 : list Notification) (t1 t2 : list Call) :
  after (after w n1 t1) n2 t2 = after w (n1 ++ n2) (t1 ++ t2).
Proof. unfold after; cbn [random_state sidebar calls]. now rewrite !app_assoc. Qed.

Lemma bind_external {A B} (c : Call) (r : result A) (k : A -> M B) (w : World) :
  bind (external c r) k w
  = match r with
    | Ok a => k a (after w [] [c])
    | Raise e => (Raise e, after w [] [c])
    end.
Proof.
  unfold bind, external, after. rewrite app_nil_r. destruct r; reflexivity.
Qed.

Lemma bind_notify {B} (n : Notification) (k : unit -> M B) (w : World) :
  bind (notify n) k w = k tt (after w [n] []).
Proof. unfold bind, notify, after. now rewrite app_nil_r. Qed.

Ltac run_acquire :=
  unfold acquire;
  repeat match goal with
         | H : _ = _ |- _ => rewrite bind_external, H; clear H; cbv beta iota
         end.

Lemma acquire_failure (env : Services) (e : exn) (n : nat) (w : World) :
  acquisition_failure env e n ->
  acquire env w = (Raise e, after w [] (firstn (S n) acquisition_calls)).
Proof.
  intros F. destruct F; run_acquire; rewrite ?after_after; reflexivity.
Qed.

Lemma acquire_success (env : Services) (df : Dataset) (w : World) :
  acquisition_success env df ->
  acquire env w = (Ok df, after w [success msg_loaded] acquisition_calls).
Proof.
  intros S. destruct S; run_acquire.
  rewrite bind_notify. unfold ret. rewrite ?after_after. reflexivity.
Qed.

Lemma acquisition_outcome (env : Services) :
  (exists df, acquisition_success env df)
  \/ (exists e n, acquisition_failure env e n).
Proof.
  destruct (import_gspread env) as [u0|e] eqn:E0;
    [|right; exists e, 0%nat; now constructor].
  destruct (import_Credentials env) as [u1|e] eqn:E1;
    [|right; exists e, 1%nat; econstructor; eassumption].
  destruct (secrets_getitem env "GOOGLE_CREDS_JSON") as [secret|e] eqn:E2;
    [|right; exists e, 2%nat; econstructor; eassumption].
  destruct (json_loads env secret) as [creds_dict|e] eqn:E3;
    [|right; exists e, 3%nat; econstructor; eassumption].
  destruct (from_service_account_info env creds_dict scopes) as [credentials|e] eqn:E4;
    [|right; exists e, 4%nat; econstructor; eassumption].
  destruct (authorize env credentials) as [client|e] eqn:E5;
    [|right; exists e, 5%nat; econstructor; eassumption].
  destruct (client_open env client "Streamlid") as [book|e] eqn:E6;
    [|right; exists e, 6%nat; econstructor; eassumption].
  destruct (sheet1 env book) as [sheet|e] eqn:E7;
    [|right; exists e, 7%nat; econstructor; eassumption].
  destruct (get_all_records env sheet) as [data|e] eqn:E8;
    [|right; exists e, 8%nat; econstructor; eassumption].
  destruct (DataFrame env data) as [df|e] eqn:E9;
    [|right; exists e, 9%nat; econstructor; eassumption].
  left. exists df. econstructor; eassumption.
Qed.

Lemma fallback_run (e : exn) (w : World) :
  fallback e w
  = (Ok (map (demo_row w) (seq 0 366)), advance 1464 (after w (fallback_notes e) [])).
Proof.
  unfold fallback. rewrite !bind_notify, !after_after.
  rewrite create_demo_data_run. reflexivity.
Qed.

(** The whole of [load_data] when the [try] body raises an [Exception]. *)
Lemma load_data_fallback_run (env : Services) (e : exn) (n : nat) (w : World) :
  acquisition_failure env e n -> is_Exception e = true ->
  load_data env w
  = (Ok (map (demo_row w) (seq 0 366)),
     advance 1464 (after w (fallback_notes e) (firstn (S n) acquisition_calls))).
Proof.
  intros F He. unfold load_data, try_except_Exception.
  rewrite (acquire_failure env e n w F), He, fallback_run, after_after.
  rewrite app_nil_r. reflexivity.
Qed.

Lemma load_data_success_run (env : Services) (df : Dataset) (w : World) :
  acquisition_success env df ->
  load_data env w = (Ok df, after w [success msg_loaded] acquisition_calls).
Proof.
  intros S. unfold load_data, try_except_Exception.
  now rewrite (acquire_success env df w S).
Qed.

(** An exception that is not an [Exception] goes through the handler. *)
Lemma load_data_propagates (env : Services) (e : exn) (n : nat) (w : World) :
  acquisition_failure env e n -> is_Exception e = false ->
  load_data env w = (Raise e, after w [] (firstn (S n) acquisition_calls)).
Proof.
  intros F He. unfold load_data, try_except_Exception.
  now rewrite (acquire_failure env e n w F), He.
Qed.

Lemma credentials_rejected_failure (env : Services) :
  credentials_rejected env -> exists e n, acquisition_failure env e n.
Proof.
  intros Hc. destruct (acquisition_outcome env) as [(df & S)|F]; [|exact F].
  exfalso. destruct S as [u0 u1 s0 j0 c0 cl bk sh dt E0 E1 E2 E3 E4 _ _ _ _ _].
  destruct Hc as [(e & R)|[(s & e & R1 & R2)|(s & j & e & R1 & R2 & R3)]].
  - congruence.
  - rewrite E2 in R1. injection R1 as <-. congruence.
  - rewrite E2 in R1. injection R1 as <-.
    rewrite E3 in R2. injection R2 as <-. congruence.
Qed.

(* ===================================================================== *)
(** ** [load_data] falls back on the demo data *)
(* ===================================================================== *)

Lemma env_no_secret_fails :
  acquisition_failure env_no_secret (mk_exn KeyError "'GOOGLE_CREDS_JSON'") 2.
Proof. eapply fail_secrets; reflexivity. Qed.

Lemma create_demo_data_after (w : World) (notes : list Notification) (trace : list Call) :
  create_demo_data (after w notes trace)
  = (Ok (map (demo_row w) (seq 0 366)), advance 1464 (after w notes trace)).
Proof. rewrite create_demo_data_run. reflexivity. Qed.


Lemma run_value_inj {A} (a b : A) (w1 w2 : World) :
  (Ok a, w1) = (Ok b, w2) -> a = b.
Proof. intros H. now injection H. Qed.




(** C1, counterexample.  With no credentials in the secrets store
    [load_data] does not return 365 rows: it returns 366. *)
Lemma load_data_365_rows_fails :
  ~ (exists df w',
       load_data env_no_secret world0 = (Ok df, w') /\ List.length df = 365%nat).
Proof.
  intros (df & w' & Hrun & Hlen).
  rewrite (load_data_fallback_run _ _ _ world0 env_no_secret_fails eq_refl) in Hrun.
  apply run_value_inj in Hrun. rewrite <- Hrun, demo_rows_length in Hlen.
  discriminate.
Qed.

(** C1, amended.  When the credentials are absent or malformed, and the
    services fail with ordinary exceptions, [load_data] returns normally,
    and what it returns is the table of [create_demo_data]: 366 rows, 2024
    being a leap year. *)
Theorem load_data_rejected_credentials (env : Services) (w : World) :
  ordinary_failures env ->
  credentials_rejected env ->
  exists df w',
    load_data env w = (Ok df, w')
    /\ List.length df = 366%nat
    /\ (exists w1, random_state w1 = random_state w
                   /\ create_demo_data w1 = (Ok df, w')).
Proof.
  intros Hord Hrej.
  destruct (credentials_rejected_failure env Hrej) as (e & n & F).
  pose proof (Hord e n F) as He.
  eexists. eexists. split; [apply (load_data_fallback_run env e n w F He)|].
  split; [apply demo_rows_length|].
  exists (after w (fallback_notes e) (firstn (S n) acquisition_calls)).
  split; [reflexivity|]. apply create_demo_data_after.
Qed.

Lemma env_no_secret_ordinary : ordinary_failures env_no_secret.
Proof.
  intros e n F. destruct F; simpl in *; try discriminate.
  match goal with H : Raise _ = Raise _ |- _ => injection H as <- end.
  reflexivity.
Qed.

Lemma load_data_rejected_credentials_witness :
  exists df w',
    load_data env_no_secret world0 = (Ok df, w') /\ List.length df = 366%nat.
Proof.
  destruct (load_data_rejected_credentials env_no_secret world0)
    as (df & w' & Hrun & Hlen & _).
  - exact env_no_secret_ordinary.
  - left. eexists. reflexivity.
  - exists df, w'. split; assumption.
Defined.




(* ===================================================================== *)
(** ** The groups are the classes of the key *)
(* ===================================================================== *)

Lemma ascii_compare_trans (a b c : ascii) :
  Ascii.compare a b = Lt -> Ascii.compare b c = Lt -> Ascii.compare a c = Lt.
Proof.
  unfold Ascii.compare. rewrite !N.compare_lt_iff. apply N.lt_trans.
Qed.

Lemma string_compare_refl (s : string) : String.compare s s = Eq.
Proof.
  pose proof (String.compare_antisym s s) as H.
  destruct (String.compare s s); simpl in H; congruence.
Qed.

Lemma string_compare_trans (a b c : string) :
  String.compare a b = Lt -> String.compare b c = Lt -> String.compare a c = Lt.
Proof.
  revert b c. induction a as [|x a IH]; intros [|y b] [|z c]; simpl;
    try discriminate; try reflexivity.
  destruct (Ascii.compare x y) eqn:Exy; try discriminate;
    destruct (Ascii.compare y z) eqn:Eyz; try discriminate; intros Hab Hbc.
  - apply Ascii.compare_eq_iff in Exy, Eyz. subst y z.
    assert (E : Ascii.compare x x = Eq).
    { unfold Ascii.compare. apply N.compare_refl. }
    rewrite E. eapply IH; eassumption.
  - apply Ascii.compare_eq_iff in Exy. subst y. now rewrite Eyz.
  - apply Ascii.compare_eq_iff in Eyz. subst z. now rewrite Exy.
  - now rewrite (ascii_compare_trans x y z Exy Eyz).
Qed.

#[export] Instance KeyOrder_string : KeyOrder string.
Proof.
  split; simpl.
  - intros a b. split; [apply String.compare_eq_iff|].
    intros <-. apply string_compare_refl.
  - apply String.compare_antisym.
  - apply string_compare_trans.
Qed.

Lemma date_compare_antisym (a b : Date) :
  date_compare a b = CompOpp (date_compare b a).
Proof.
  unfold date_compare.
  destruct (Z.compare_spec (year a) (year b));
    destruct (Z.compare_spec (year b) (year a)); try lia; simpl; try reflexivity.
  destruct (Z.compare_spec (month a) (month b));
    destruct (Z.compare_spec (month b) (month a)); try lia; simpl; try reflexivity.
  destruct (Z.compare_spec (day a) (day b));
    destruct (Z.compare_spec (day b) (day a)); try lia; reflexivity.
Qed.

#[export] Instance KeyOrder_Date : KeyOrder Date.
Proof.
  split; simpl.
  - apply date_compare_eq.
  - apply date_compare_antisym.
  - apply date_compare_lt_trans.
Qed.

Section Classes.
Context {K : Type} `{KeyOrder K}.

Lemma same_key_true (a b : K) : same_key a b = true <-> a = b.
Proof.
  unfold same_key. rewrite <- key_compare_eq.
  destruct (key_compare a b); split; congruence.
Qed.

Lemma same_key_refl (a : K) : same_key a a = true.
Proof. now apply same_key_true. Qed.

Lemma key_compare_gt_lt (a b : K) : key_compare a b = Gt -> key_compare b a = Lt.
Proof.
  rewrite (key_compare_antisym b a). intros ->. reflexivity.
Qed.

Lemma same_key_lt (a b : K) : key_compare a b = Lt -> same_key a b = false /\ same_key b a = false.
Proof.
  intros Hlt. unfold same_key. rewrite (key_compare_antisym b a), Hlt. now split.
Qed.

Lemma bucket_add_keys (k : K) (v : option Z) (g : list (K * Z)) (y : K * Z) :
  In y (bucket_add k v g) -> fst y = k \/ exists y', In y' g /\ fst y' = fst y.
Proof.
  induction g as [|[k' s] g IH]; simpl.
  - intros [<-|[]]. now left.
  - destruct (key_compare k k') eqn:E.
    + apply key_compare_eq in E. subst k'.
      intros [<-|Hin]; [now left|]. right. exists y. split; [now right | reflexivity].
    + intros [<-|Hin]; [now left|]. right. exists y. split; [exact Hin | reflexivity].
    + intros [<-|Hin].
      * right. exists (k', s). split; [now left | reflexivity].
      * destruct (IH Hin) as [E'|(y' & Hy' & E')]; [now left|].
        right. exists y'. split; [now right | exact E'].
Qed.

Lemma bucket_add_sorted (k : K) (v : option Z) (g : list (K * Z)) :
  StronglySorted keys_lt g -> StronglySorted keys_lt (bucket_add k v g).
Proof.
  induction 1 as [|[k' s] g Hg IH Hall]; simpl.
  - repeat constructor.
  - destruct (key_compare k k') eqn:E.
    + constructor; [exact Hg|]. exact Hall.
    + constructor; [now constructor|].
      constructor; [exact E|].
      eapply Forall_impl; [|exact Hall].
      intros y Hy. unfold keys_lt in *; simpl in *.
      eapply key_compare_trans; eassumption.
    + constructor; [exact IH|].
      apply Forall_forall. intros y Hy.
      destruct (bucket_add_keys _ _ _ _ Hy) as [Ey|(y' & Hy' & Ey)].
      * unfold keys_lt; simpl. rewrite Ey. now apply key_compare_gt_lt.
      * rewrite Forall_forall in Hall. specialize (Hall y' Hy').
        unfold keys_lt in *; simpl in *. now rewrite <- Ey.
Qed.

Lemma group_get_below (k : K) (g : list (K * Z)) :
  Forall (fun y => key_compare k (fst y) = Lt) g -> group_get k g = None.
Proof.
  unfold group_get. induction 1 as [|y g Hy _ IH]; simpl; [reflexivity|].
  destruct (same_key_lt _ _ Hy) as [_ ->]. exact IH.
Qed.

Lemma group_get_cons (k0 k : K) (s : Z) (g : list (K * Z)) :
  group_get k0 ((k, s) :: g) = if same_key k k0 then Some s else group_get k0 g.
Proof. unfold group_get; simpl. destruct (same_key k k0); reflexivity. Qed.

Lemma group_get_bucket_add (k0 k : K) (v : option Z) (g : list (K * Z)) :
  StronglySorted keys_lt g ->
  group_get k0 (bucket_add k v g)
  = if same_key k k0
    then Some (value_or_0 (group_get k g) + value_or_0 v)
    else group_get k0 g.
Proof.
  induction 1 as [|[k' s] g Hg IH Hall]; simpl.
  - rewrite group_get_cons. unfold group_get; simpl.
    destruct (same_key k k0); reflexivity.
  - destruct (key_compare k k') eqn:E.
    + apply key_compare_eq in E. subst k'.
      rewrite !group_get_cons, same_key_refl. simpl.
      destruct (same_key k k0); reflexivity.
    + rewrite (group_get_cons k0 k). rewrite (group_get_below k ((k', s) :: g)).
      * simpl. destruct (same_key k k0); reflexivity.
      * constructor; [exact E|].
        eapply Forall_impl; [|exact Hall].
        intros y Hy. unfold keys_lt in Hy; simpl in Hy.
        eapply key_compare_trans; eassumption.
    + apply key_compare_gt_lt in E. destruct (same_key_lt _ _ E) as [E1 E2].
      rewrite (group_get_cons k0 k'), IH, (group_get_cons k k'), E1.
      destruct (same_key k k0) eqn:Ek.
      * apply same_key_true in Ek. subst k0. now rewrite E1.
      * rewrite group_get_cons. reflexivity.
Qed.

Variable key : Row -> K.
Variable value : Row -> option Z.

Lemma class_total_cons (k : K) (r : Row) (df : Dataset) :
  class_total key value k (r :: df)
  = (if same_key (key r) k then value_or_0 (value r) else 0)
    + class_total key value k df.
Proof.
  unfold class_total; simpl. destruct (same_key (key r) k); simpl.
  - apply series_sum_cons.
  - lia.
Qed.

Lemma class_total_absent (k : K) (df : Dataset) :
  existsb (fun r => same_key (key r) k) df = false -> class_total key value k df = 0.
Proof.
  induction df as [|r df IH]; simpl; [reflexivity|].
  intros E. apply orb_false_elim in E. destruct E as [E1 E2].
  rewrite class_total_cons, E1, (IH E2). reflexivity.
Qed.

Lemma fold_bucket_add_sorted (df : Dataset) (g : list (K * Z)) :
  StronglySorted keys_lt g ->
  StronglySorted keys_lt
    (fold_left (fun groups r => bucket_add (key r) (value r) groups) df g).
Proof.
  revert g. induction df as [|r df IH]; intros g Hg; simpl; [exact Hg|].
  apply IH. now apply bucket_add_sorted.
Qed.

Lemma group_get_fold (k0 : K) (df : Dataset) (g : list (K * Z)) :
  StronglySorted keys_lt g ->
  group_get k0 (fold_left (fun groups r => bucket_add (key r) (value r) groups) df g)
  = if existsb (fun r => same_key (key r) k0) df
    then Some (value_or_0 (group_get k0 g) + class_total key value k0 df)
    else group_get k0 g.
Proof.
  revert g. induction df as [|r df IH]; intros g Hg; simpl; [reflexivity|].
  rewrite (IH _ (bucket_add_sorted _ _ _ Hg)), (group_get_bucket_add _ _ _ _ Hg).
  rewrite class_total_cons.
  destruct (same_key (key r) k0) eqn:Ek; simpl.
  - apply same_key_true in Ek. rewrite Ek.
    destruct (existsb (fun r0 => same_key (key r0) k0) df) eqn:Ex; simpl.
    + f_equal. lia.
    + rewrite (class_total_absent _ _ Ex). f_equal. lia.
  - reflexivity.
Qed.

Lemma sorted_keys_NoDup (g : list (K * Z)) :
  StronglySorted keys_lt g -> NoDup (map fst g).
Proof.
  induction 1 as [|y g Hg IH Hall]; simpl; constructor; [|exact IH].
  intros Hin. apply in_map_iff in Hin. destruct Hin as (y' & Ey & Hy').
  rewrite Forall_forall in Hall. specialize (Hall y' Hy').
  unfold keys_lt in Hall. rewrite Ey in Hall.
  destruct (same_key_lt _ _ Hall) as [E _]. now rewrite same_key_refl in E.
Qed.

Lemma sorted_group_get (g : list (K * Z)) (k : K) (s : Z) :
  StronglySorted keys_lt g -> In (k, s) g -> group_get k g = Some s.
Proof.
  induction 1 as [|[k' s'] g Hg IH Hall]; simpl; [tauto|].
  intros [E|Hin]; rewrite group_get_cons.
  - inversion E; subst. now rewrite same_key_refl.
  - rewrite Forall_forall in Hall. specialize (Hall _ Hin).
    unfold keys_lt in Hall; simpl in Hall.
    destruct (same_key_lt _ _ Hall) as [-> _]. now apply IH.
Qed.

Lemma group_get_In (g : list (K * Z)) (k : K) (s : Z) :
  group_get k g = Some s -> In (k, s) g.
Proof.
  unfold group_get. destruct (find _ g) as [[k' s']|] eqn:E; simpl; [|discriminate].
  intros Hs. inversion Hs; subst s'. apply find_some in E. destruct E as [Hin Ek].
  apply same_key_true in Ek. simpl in Ek. now subst k'.
Qed.

Lemma group_rows_sorted (df : Dataset) :
  StronglySorted keys_lt (group_rows key value df).
Proof. apply fold_bucket_add_sorted. constructor. Qed.

Lemma group_rows_get (k : K) (df : Dataset) :
  group_get k (group_rows key value df)
  = if existsb (fun r => same_key (key r) k) df
    then Some (class_total key value k df)
    else None.
Proof.
  unfold group_rows. rewrite group_get_fold by constructor.
  destruct (existsb _ df); reflexivity.
Qed.

End Classes.

Lemma group_rows_partition {K} `{KeyOrder K} (key : Row -> K) (df : Dataset) :
  rows_partition key df (group_rows key sales df).
Proof.
  split; [|split].
  - apply sorted_keys_NoDup, group_rows_sorted.
  - intros r Hr.
    assert (E : existsb (fun r0 => same_key (key r0) (key r)) df = true).
    { apply existsb_exists. exists r. split; [exact Hr | apply same_key_refl]. }
    pose proof (group_rows_get key sales (key r) df) as G. rewrite E in G.
    apply group_get_In in G. apply in_map_iff. eexists. split; [|exact G]. reflexivity.
  - intros k s Hin.
    pose proof (sorted_group_get _ _ _ (group_rows_sorted key sales df) Hin) as G.
    rewrite group_rows_get in G.
    destruct (existsb (fun r => same_key (key r) k) df) eqn:E; [|discriminate].
    apply existsb_exists in E. destruct E as (r & Hr & Ek).
    apply same_key_true in Ek. split; [now exists r | congruence].
Qed.

Lemma rows_partition_perm {K} `{Key K} (key : Row -> K) (df : Dataset)
      (t t' : list (K * Z)) :
  Permutation t t' -> rows_partition key df t -> rows_partition key df t'.
Proof.
  intros P (Hnd & Hall & Hgrp). split; [|split].
  - eapply Permutation_NoDup; [|exact Hnd]. now apply Permutation_map.
  - intros r Hr. eapply Permutation_in; [|apply Hall, Hr]. now apply Permutation_map.
  - intros k s Hin. apply Hgrp. eapply Permutation_in; [|exact Hin].
    now apply Permutation_sym.
Qed.

Lemma same_key_string (a b : string) : same_key a b = String.eqb a b.
Proof.
  destruct (String.eqb_spec a b) as [E|N].
  - subst. apply same_key_refl.
  - destruct (same_key a b) eqn:S; [|reflexivity].
    apply same_key_true in S. contradiction.
Qed.

(** ** Grouping when keys can be missing *)


(** Grouping skips the rows without a key, and groups the others. *)
Lemma groupby_sum_dropna {K} `{Key K} (d : K) (key : Row -> option K)
      (value : Row -> option Z) (df : Dataset) :
  groupby_sum key value df
  = group_rows (fun r => key_or d (key r)) value (filter (keyed key) df).
Proof.
  unfold groupby_sum, group_rows. generalize (@nil (K * Z)) as g.
  induction df as [|r df IH]; intros g; [reflexivity|].
  cbn [fold_left filter]. unfold keyed at 1.
  destruct (key r) as [k|] eqn:E.
  - cbn [fold_left]. rewrite E. cbn [key_or]. apply IH.
  - apply IH.
Qed.

Lemma groupby_sum_total {K} `{Key K} (key : Row -> option K)
      (value : Row -> option Z) (df : Dataset) :
  sum_of_groups (groupby_sum key value df)
  = series_sum (map value (filter (keyed key) df)).
Proof.
  unfold groupby_sum.
  enough (G : forall g,
    sum_of_groups
      (fold_left (fun groups r => match key r with
                                  | Some k => bucket_add k (value r) groups
                                  | None => groups
                                  end) df g)
    = sum_of_groups g + series_sum (map value (filter (keyed key) df))).
  { rewrite G. reflexivity. }
  induction df as [|r df IH]; intros g; cbn [fold_left filter].
  - cbn [map]. rewrite series_sum_nil. lia.
  - rewrite IH. unfold keyed at 2. destruct (key r) as [k|].
    + cbn [map]. rewrite sum_of_groups_bucket_add, series_sum_cons. lia.
    + reflexivity.
Qed.

Lemma filter_filter {A} (p q : A -> bool) (l : list A) :
  filter p (filter q l) = filter (fun x => q x && p x) l.
Proof.
  induction l as [|x l IH]; simpl; [reflexivity|].
  destruct (q x); simpl; [destruct (p x)|]; now rewrite IH.
Qed.

Lemma filter_keyed_present {K} (key : Row -> K) (df : Dataset) :
  filter (keyed (present key)) df = df.
Proof. induction df as [|r df IH]; simpl; [reflexivity | now rewrite IH]. Qed.

Lemma keyed_month_col (r : Row) : keyed month_col r = has_date r.
Proof. unfold keyed, has_date, keyed, month_col. now destruct (date r). Qed.

Lemma groupby_sum_sorted {K} `{KeyOrder K} (key : Row -> option K)
      (value : Row -> option Z) (df : Dataset) :
  StronglySorted keys_lt (groupby_sum key value df).
Proof.
  unfold groupby_sum. generalize (@nil (K * Z)) (SSorted_nil (@keys_lt K _)).
  induction df as [|r df IH]; intros g Hg; cbn [fold_left]; [exact Hg|].
  apply IH. destruct (key r); [now apply bucket_add_sorted | exact Hg].
Qed.

Lemma groupby_sum_partition {K} `{KeyOrder K} (d : K) (key : Row -> option K)
      (df : Dataset) :
  groups_partition key df (groupby_sum key sales df).
Proof.
  rewrite (groupby_sum_dropna d).
  destruct (group_rows_partition (fun r => key_or d (key r)) (filter (keyed key) df))
    as (Hnd & Hall & Hgrp).
  split; [exact Hnd|]. split.
  - intros r k Hr Ek.
    assert (Hin : In r (filter (keyed key) df)).
    { apply filter_In. split; [exact Hr|]. unfold keyed. now rewrite Ek. }
    specialize (Hall r Hin). now rewrite Ek in Hall.
  - intros k s Hin. destruct (Hgrp k s Hin) as [(r & Hr & Ek) Hs].
    apply filter_In in Hr. destruct Hr as [Hr Hk]. split.
    + exists r. split; [exact Hr|]. unfold keyed in Hk.
      destruct (key r); [simpl in Ek; now subst | discriminate].
    + rewrite Hs. unfold class_total, total_sales, col.
      rewrite filter_filter. f_equal. f_equal. apply filter_ext.
      intros r'. unfold keyed, has_key. destruct (key r'); reflexivity.
Qed.

Lemma groups_partition_perm {K} `{Key K} (key : Row -> option K) (df : Dataset)
      (t t' : list (K * Z)) :
  Permutation t t' -> groups_partition key df t -> groups_partition key df t'.
Proof.
  intros P (Hnd & Hall & Hgrp). split; [|split].
  - eapply Permutation_NoDup; [|exact Hnd]. now apply Permutation_map.
  - intros r k Hr Ek. eapply Permutation_in; [|apply (Hall r k Hr Ek)].
    now apply Permutation_map.
  - intros k s Hin. apply Hgrp. eapply Permutation_in; [|exact Hin].
    now apply Permutation_sym.
Qed.

(** *** Sums that stay exact *)

Lemma series_abs_sum_nonneg (s : list (option Z)) : 0 <= series_abs_sum s.
Proof. induction s as [|[x|] s IH]; simpl; lia. Qed.

Lemma series_sum_abs (s : list (option Z)) : Z.abs (series_sum s) <= series_abs_sum s.
Proof.
  induction s as [|v s IH]; [rewrite series_sum_nil; simpl; lia|].
  rewrite series_sum_cons. destruct v as [x|]; simpl; lia.
Qed.

Lemma series_abs_sum_filter (p : Row -> bool) (df : Dataset) :
  series_abs_sum (map sales (filter p df)) <= series_abs_sum (map sales df).
Proof.
  induction df as [|r df IH]; simpl; [lia|].
  destruct (p r); simpl; destruct (sales r); lia.
Qed.

Lemma total_sales_filter_exact (p : Row -> bool) (df : Dataset) :
  sales_exact df -> exact_in_pandas (total_sales (filter p df)).
Proof.
  unfold sales_exact, exact_in_pandas, total_sales, col. intros Hb.
  pose proof (series_sum_abs (map sales (filter p df))).
  pose proof (series_abs_sum_filter p df). lia.
Qed.

Lemma total_sales_exact (df : Dataset) :
  sales_exact df -> exact_in_pandas (total_sales df).
Proof.
  unfold sales_exact, exact_in_pandas, total_sales, col. intros Hb.
  pose proof (series_sum_abs (map sales df)). lia.
Qed.

Lemma groups_exact {K} `{Key K} (key : Row -> option K) (df : Dataset)
      (t : list (K * Z)) :
  sales_exact df -> groups_partition key df t ->
  forall k z, In (k, z) t -> exact_in_pandas z.
Proof.
  intros Hb (_ & _ & Hgrp) k z Hin. destruct (Hgrp k z Hin) as [_ ->].
  now apply total_sales_filter_exact.
Qed.

Lemma region_sales_partition (df : Dataset) :
  groups_partition (present region) df (region_sales df).
Proof.
  apply (groups_partition_perm (present region) df _ _ (sort_values_perm _)).
  apply (groupby_sum_partition EmptyString).
Qed.

Lemma region_sales_total (df : Dataset) :
  sum_of_groups (region_sales df) = total_sales df.
Proof.
  unfold region_sales. rewrite <- (sum_of_groups_perm _ _ (sort_values_perm _)).
  rewrite groupby_sum_total, filter_keyed_present. reflexivity.
Qed.

(* ===================================================================== *)
(** ** The aggregates (lines 122-194) *)
(* ===================================================================== *)

(** C5, counterexample.  A table with a dated row of sales 100 and a row of
    sales 40 whose date cell was blank, seen with one end of the range
    chosen so that nothing is filtered: the total is 140, the table by date
    adds up to 100. *)
Lemma grouped_sums_equal_total_fails :
  ~ grouped_sums_equal_total (view (main undated_rows [mkDate 2024 1 1] Barchasi)).
Proof.
  intros (H & _). vm_compute in H. discriminate.
Qed.

(** C5, amended.  With integer amounts small enough for the sums to be
    exact: the groupings by product and by region partition the table, and
    their group sums add up to the total of the [sales] column; the
    groupings by date and by month partition the rows that have a date (a
    row without one goes to no group), so their group sums add up to the
    total over the dated rows, which is the total of the table when no row
    lacks a date.  Every sum involved is in the range where int64 and
    float64 are exact. *)
Theorem grouped_sums_add_up_to_total (df : Dataset) :
  sales_exact df ->
  (sum_of_groups (product_sales df) = total_sales df
   /\ groups_partition (present product) df (product_sales df))
  /\ (sum_of_groups (region_sales df) = total_sales df
      /\ groups_partition (present region) df (region_sales df))
  /\ (sum_of_groups (daily_sales df) = total_sales (dated df)
      /\ groups_partition date df (daily_sales df))
  /\ (sum_of_groups (monthly_sales df) = total_sales (dated df)
      /\ groups_partition month_col df (monthly_sales df))
  /\ ((forall r, In r df -> date r <> None) ->
      sum_of_groups (daily_sales df) = total_sales df
      /\ sum_of_groups (monthly_sales df) = total_sales df)
  /\ (exact_in_pandas (total_sales df)
      /\ exact_in_pandas (total_sales (dated df))
      /\ (forall k z, In (k, z) (product_sales df) -> exact_in_pandas z)
      /\ (forall k z, In (k, z) (region_sales df) -> exact_in_pandas z)
      /\ (forall k z, In (k, z) (daily_sales df) -> exact_in_pandas z)
      /\ (forall k z, In (k, z) (monthly_sales df) -> exact_in_pandas z)).
Proof.
  intros Hb.
  assert (Pp : groups_partition (present product) df (product_sales df))
    by apply (groupby_sum_partition EmptyString).
  assert (Pd : groups_partition date df (daily_sales df))
    by apply (groupby_sum_partition first_day).
  assert (Pm : groups_partition month_col df (monthly_sales df))
    by apply (groupby_sum_partition EmptyString).
  assert (Sd : sum_of_groups (daily_sales df) = total_sales (dated df)).
  { unfold daily_sales. now rewrite groupby_sum_total. }
  assert (Sm : sum_of_groups (monthly_sales df) = total_sales (dated df)).
  { unfold monthly_sales. rewrite groupby_sum_total.
    unfold total_sales, col, dated. f_equal. f_equal.
    apply filter_ext. apply keyed_month_col. }
  split; [|split; [|split; [|split; [|split]]]].
  - split; [|exact Pp]. unfold product_sales.
    rewrite groupby_sum_total, filter_keyed_present. reflexivity.
  - split; [apply region_sales_total | apply region_sales_partition].
  - split; [exact Sd | exact Pd].
  - split; [exact Sm | exact Pm].
  - intros Hall.
    assert (E : dated df = df).
    { unfold dated. clear - Hall. induction df as [|r df IH]; [reflexivity|].
      simpl. unfold has_date at 1, keyed.
      destruct (date r) eqn:Er; [|exfalso; apply (Hall r); [now left | exact Er]].
      f_equal. apply IH. intros r' Hr'. apply Hall. now right. }
    rewrite Sd, Sm, E. now split.
  - split; [now apply total_sales_exact|].
    split; [now apply total_sales_filter_exact|].
    split; [now apply (groups_exact (present product) df)|].
    split; [apply (groups_exact (present region) df _ Hb), region_sales_partition|].
    split; [now apply (groups_exact date df) | now apply (groups_exact month_col df)].
Qed.

Lemma grouped_sums_add_up_to_total_witness :
  sum_of_groups (daily_sales example_rows) = total_sales example_rows
  /\ sum_of_groups (daily_sales undated_rows) = 100.
Proof.
  split.
  - destruct (grouped_sums_add_up_to_total example_rows) as (_ & _ & _ & _ & H & _).
    + vm_compute. reflexivity.
    + apply H. intros r [<-|[<-|[<-|[]]]]; discriminate.
  - destruct (grouped_sums_add_up_to_total undated_rows) as (_ & _ & (H & _) & _).
    + vm_compute. reflexivity.
    + rewrite H. reflexivity.
Defined.

(** C7.  The per-region table holds each region's summed sales, one entry
    per region that occurs, and lists them in ascending order of the
    sums. *)
Theorem region_sales_ascending (df : Dataset) :
  StronglySorted value_le (region_sales df)
  /\ NoDup (map fst (region_sales df))
  /\ (forall r, In r df -> In (region r) (map fst (region_sales df)))
  /\ (forall k s, In (k, s) (region_sales df) ->
        (exists r, In r df /\ region r = k)
        /\ s = total_sales (filter (fun r => String.eqb (region r) k) df))
  /\ Permutation (groupby_sum (present region) sales df) (region_sales df).
Proof.
  destruct (region_sales_partition df) as (Hnd & Hall & Hgrp).
  split; [apply sort_values_sorted|]. split; [exact Hnd|]. split; [|split].
  - intros r Hr. now apply (Hall r (region r) Hr).
  - intros k s Hin. destruct (Hgrp k s Hin) as [(r & Hr & Ek) ->].
    split; [exists r; split; [exact Hr | now injection Ek] |].
    f_equal. apply filter_ext. intros r'. apply same_key_string.
  - apply sort_values_perm.
Qed.

(** C6, counterexample.  One row with sales 100 and customers -5: the total
    of customers is -5, the quotient is -20, and line 134 yields 0. *)
Lemma avg_order_is_quotient_fails : ~ avg_order_is_quotient refund_rows.
Proof.
  intros (_ & H & _). destruct H as (q & Hq & Hv); [discriminate|].
  vm_compute in Hq. inversion Hq; subst q. vm_compute in Hv. discriminate.
Qed.

(** C6, amended.  When the total of customers is positive the
    average-order value is the quotient of the two totals; when it is zero
    the value is 0; and the computation raises for no table. *)
Theorem avg_order_guarded (df : Dataset) :
  (0 < total_customers df ->
   avg_order_of df
     = Ok (inject_Z (total_sales df) / inject_Z (total_customers df))%Q)
  /\ (total_customers df = 0 -> avg_order_of df = Ok 0%Q)
  /\ (forall e, avg_order_of df <> Raise e).
Proof.
  unfold avg_order_of. split; [|split].
  - intros Hpos. destruct (avg_order_pos (total_sales df) _ Hpos) as [-> ->].
    reflexivity.
  - intros Hz. apply avg_order_nonpos. lia.
  - apply avg_order_total.
Qed.

Lemma avg_order_guarded_witness :
  avg_order_of example_rows = Ok (inject_Z 150315 / inject_Z 310)%Q
  /\ avg_order_of [] = Ok 0%Q.
Proof.
  split.
  - destruct (avg_order_guarded example_rows) as (H & _ & _).
    apply H. vm_compute. reflexivity.
  - destruct (avg_order_guarded []) as (_ & H & _).
    apply H. reflexivity.
Defined.

(** C9.  The guard is [> 0]: a negative total of customers gives 0 like a
    zero total does, and the division is reached exactly when the total is
    strictly positive. *)
Theorem avg_order_negative_total (df : Dataset) :
  (total_customers df < 0 -> avg_order_of df = Ok 0%Q)
  /\ (total_customers df <= 0 -> avg_order_of df = Ok 0%Q)
  /\ (0 < total_customers df ->
      avg_order_of df = truediv (total_sales df) (total_customers df)).
Proof.
  unfold avg_order_of. split; [|split].
  - intros Hneg. apply avg_order_nonpos. lia.
  - apply avg_order_nonpos.
  - intros Hpos. now apply avg_order_pos.
Qed.

(** A table whose total of customers is negative: the value is 0 although
    the quotient of the totals is -20. *)
Lemma avg_order_negative_total_witness :
  total_customers refund_rows < 0
  /\ avg_order_of refund_rows = Ok 0%Q
  /\ truediv (total_sales refund_rows) (total_customers refund_rows)
     = Ok (inject_Z 100 / inject_Z (-5))%Q.
Proof.
  split; [reflexivity|]. split; [|reflexivity].
  destruct (avg_order_negative_total refund_rows) as (H & _ & _).
  apply H. reflexivity.
Defined.

(* ===================================================================== *)
(** ** Worked examples *)
(* ===================================================================== *)

(** Three days starting 2024-01-01, filtered to exactly 2024-01-02: one row
    is left, with the sales value of that day unchanged. *)
Example main_single_day :
  view (main example_rows [mkDate 2024 1 2; mkDate 2024 1 2] Barchasi)
  = [ mkRow (Some (mkDate 2024 1 2)) (Some 50105) (Some 90) "Product B" "Bukhara" ].
Proof. reflexivity. Qed.

Example main_region_table :
  chart_region (main example_rows [mkDate 2024 1 1] Barchasi)
  = [("Bukhara", 50105); ("Tashkent", 100210)].
Proof. reflexivity. Qed.

Example main_monthly_table :
  chart_monthly (main example_rows [] "Tashkent") = [("2024-01", 100210)].
Proof. reflexivity. Qed.

Example region_options_example :
  region_options example_rows = ["Barchasi"; "Bukhara"; "Tashkent"].
Proof. reflexivity. Qed.

(** The leap day is in the index of the demo table. *)
Example leap_day_in_range : nth 59 dates_2024 first_day = mkDate 2024 2 29.
Proof. vm_compute. reflexivity. Qed.

(** A secret that is not JSON: the parser's error text reaches the sidebar
    and the demo table is returned. *)
Example load_data_bad_json :
  exists df w',
    load_data env_bad_json world0 = (Ok df, w')
    /\ sidebar w'
       = [warning msg_failed;
          error "Expecting property name enclosed in double quotes";
          info msg_demo]
    /\ calls w' = [CallImportGspread; CallImportCredentials; CallSecrets; CallJsonLoads].
Proof.
  eexists. eexists. split.
  - apply (load_data_fallback_run env_bad_json
             (mk_exn JSONDecodeError "Expecting property name enclosed in double quotes")
             3 world0).
    + eapply fail_json_loads; reflexivity.
    + reflexivity.
  - split; reflexivity.
Qed.

(** An interrupt during the row fetch is not an [Exception]: it is not
    caught, and no fallback takes place. *)
Example load_data_interrupted :
  let env := mkServices unit unit unit unit unit unit
               (Ok tt) (Ok tt) (fun _ => Ok "{}") (fun _ => Ok tt)
               (fun _ _ => Ok tt) (fun _ => Ok tt) (fun _ _ => Ok tt)
               (fun _ => Ok tt)
               (fun _ => Raise (mk_exn KeyboardInterrupt EmptyString))
               (fun _ => Ok []) in
  fst (load_data env world0) = Raise (mk_exn KeyboardInterrupt EmptyString)
  /\ sidebar (snd (load_data env world0)) = [].
Proof.
  intros env.
  rewrite (load_data_propagates env (mk_exn KeyboardInterrupt EmptyString) 8 world0).
  - split; reflexivity.
  - eapply fail_get_all_records; reflexivity.
  - reflexivity.
Qed.

(* ===================================================================== *)
(** * Further properties of the code *)
(* ===================================================================== *)

(** ** [load_data]: the other two ways out *)

(** X1.  When every call of the [try] body succeeds, [load_data] returns
    the table built from the sheet, shows the success notice and nothing
    else, has made the ten calls once each in source order, and has not
    touched the random generator: no demo data is produced. *)
Theorem load_data_success (env : Services) (df : Dataset) (w : World) :
  acquisition_success env df ->
  exists w',
    load_data env w = (Ok df, w')
    /\ sidebar w' = (sidebar w ++ [success msg_loaded])%list
    /\ calls w' = (calls w ++ acquisition_calls)%list
    /\ random_state w' = random_state w.
Proof.
  intros S. eexists. split; [apply (load_data_success_run env df w S)|].
  repeat split.
Qed.

Lemma env_sheet_success : acquisition_success env_sheet example_rows.
Proof. eapply all_steps_ok; reflexivity. Qed.

Lemma load_data_success_witness :
  exists w',
    load_data env_sheet world0 = (Ok example_rows, w')
    /\ sidebar w' = [success msg_loaded]
    /\ consumed (random_state w') = 0%nat.
Proof.
  destruct (load_data_success env_sheet example_rows world0 env_sheet_success)
    as (w' & Hrun & Hside & _ & Hrand).
  exists w'. split; [exact Hrun|]. split; [exact Hside|].
  rewrite Hrand. reflexivity.
Defined.

(** X2.  An exception that does not derive from [Exception] is not caught:
    [load_data] raises it, shows nothing in the sidebar, makes no call after
    the failing one and produces no demo data. *)
Theorem load_data_base_exception (env : Services) (e : exn) (n : nat) (w : World) :
  acquisition_failure env e n ->
  is_Exception e = false ->
  exists w',
    load_data env w = (Raise e, w')
    /\ sidebar w' = sidebar w
    /\ calls w' = (calls w ++ firstn (S n) acquisition_calls)%list
    /\ random_state w' = random_state w.
Proof.
  intros F He. eexists.
  split; [apply (load_data_propagates env e n w F He)|].
  unfold after; cbn [sidebar calls random_state].
  rewrite app_nil_r. repeat split.
Qed.

Lemma load_data_base_exception_witness :
  exists w',
    load_data env_interrupted world0
      = (Raise (mk_exn KeyboardInterrupt EmptyString), w')
    /\ sidebar w' = []
    /\ List.length (calls w') = 9%nat.
Proof.
  destruct (load_data_base_exception env_interrupted
              (mk_exn KeyboardInterrupt EmptyString) 8 world0)
    as (w' & Hrun & Hside & Hcalls & _).
  - eapply fail_get_all_records; reflexivity.
  - reflexivity.
  - exists w'. split; [exact Hrun|]. split; [exact Hside|].
    rewrite Hcalls. reflexivity.
Defined.

(** ** [create_demo_data]: what it does to the interpreter state *)

Lemma demo_row_same_generator (w1 w2 : World) (k : nat) :
  random_state w1 = random_state w2 -> demo_row w1 k = demo_row w2 k.
Proof. intros E. unfold demo_row, draw_at. now rewrite E. Qed.

(** X3.  [create_demo_data] makes exactly 1464 draws (four columns of 366)
    and changes nothing else: the sidebar and the record of calls are as
    before.  Its table is a function of the generator state alone, and a
    second call right after the first reads the next 1464 draws. *)
Theorem create_demo_data_effects (w : World) :
  exists df w',
    create_demo_data w = (Ok df, w')
    /\ sidebar w' = sidebar w
    /\ calls w' = calls w
    /\ tape (random_state w') = tape (random_state w)
    /\ consumed (random_state w') = (consumed (random_state w) + 1464)%nat
    /\ (forall w2, random_state w2 = random_state w ->
                   fst (create_demo_data w2) = Ok df)
    /\ (exists df2 w'',
          create_demo_data w' = (Ok df2, w'')
          /\ consumed (random_state w'') = (consumed (random_state w) + 2928)%nat
          /\ col date df2 = col date df).
Proof.
  exists (map (demo_row w) (seq 0 366)), (advance 1464 w).
  split; [apply create_demo_data_run|].
  repeat split.
  - intros w2 E. rewrite create_demo_data_run. cbn [fst]. apply f_equal.
    apply map_ext. intros k. now apply demo_row_same_generator.
  - exists (map (demo_row (advance 1464 w)) (seq 0 366)), (advance 1464 (advance 1464 w)).
    split; [apply create_demo_data_run|]. split.
    + rewrite advance_advance. unfold advance; cbn [random_state consumed]. lia.
    + now rewrite !demo_rows_dates.
Qed.

Lemma create_demo_data_effects_witness :
  exists df w',
    create_demo_data world0 = (Ok df, w')
    /\ consumed (random_state w') = 1464%nat
    /\ fst (create_demo_data
              (mkWorld (random_state world0) [info msg_demo] [CallSecrets])) = Ok df.
Proof.
  destruct (create_demo_data_effects world0)
    as (df & w' & Hrun & _ & _ & _ & Hcons & Hsame & _).
  exists df, w'. split; [exact Hrun|]. split; [exact Hcons|].
  apply Hsame. reflexivity.
Defined.

(** ** The two filters as operations on tables *)

Lemma Date_le_trans (a b c : Date) : Date_le a b -> Date_le b c -> Date_le a c.
Proof. unfold Date_le. lia. Qed.

Lemma Date_le_refl (a : Date) : Date_le a a.
Proof. unfold Date_le. lia. Qed.

Lemma date_le_total (a b : Date) : date_le a b = false -> date_le b a = true.
Proof.
  intros H. apply date_le_iff.
  assert (N : ~ Date_le a b) by (rewrite <- date_le_iff; congruence).
  unfold Date_le in *. lia.
Qed.

Lemma date_filter_as_filter (dr : list Date) (df : Dataset) :
  date_filter dr df
  = if (List.length dr =? 2)%nat
    then filter (in_range (nth 0 dr (mkDate 0 0 0)) (nth 1 dr (mkDate 0 0 0))) df
    else df.
Proof.
  unfold date_filter. destruct (List.length dr =? 2)%nat; [|reflexivity].
  unfold series_ge, series_le, col.
  rewrite !map_map, series_and_map, getitem_mask_map.
  apply filter_ext. intros r. unfold in_range, date_ge.
  destruct (date r); reflexivity.
Qed.

Lemma region_filter_as_filter (sel : string) (df : Dataset) :
  region_filter sel df
  = if negb (String.eqb sel Barchasi)
    then filter (fun r => String.eqb (region r) sel) df
    else df.
Proof.
  unfold region_filter. destruct (negb (String.eqb sel Barchasi)); [|reflexivity].
  unfold series_eq, col. rewrite map_map. apply getitem_mask_map.
Qed.

Lemma filter_comm {A} (p q : A -> bool) (l : list A) :
  filter p (filter q l) = filter q (filter p l).
Proof.
  induction l as [|x l IH]; simpl; [reflexivity|].
  destruct (p x) eqn:Ep, (q x) eqn:Eq; simpl; rewrite ?Ep, ?Eq, IH; reflexivity.
Qed.

Lemma filter_idem {A} (p : A -> bool) (l : list A) :
  filter p (filter p l) = filter p l.
Proof.
  induction l as [|x l IH]; simpl; [reflexivity|].
  destruct (p x) eqn:Ep; simpl; rewrite ?Ep, IH; reflexivity.
Qed.

Lemma filter_all {A} (p : A -> bool) (l : list A) :
  (forall x, In x l -> p x = true) -> filter p l = l.
Proof.
  induction l as [|x l IH]; simpl; intros H; [reflexivity|].
  rewrite (H x) by now left. f_equal. apply IH. intros y Hy. apply H. now right.
Qed.

Lemma filter_none {A} (p : A -> bool) (l : list A) :
  (forall x, In x l -> p x = false) -> filter p l = [].
Proof.
  induction l as [|x l IH]; simpl; intros H; [reflexivity|].
  rewrite (H x) by now left. apply IH. intros y Hy. apply H. now right.
Qed.

(** X4.  The two filters can be applied in either order, and so can two
    date filters or two region filters: the view does not depend on the
    order in which lines 104-112 narrow the table. *)
Theorem filters_commute (df : Dataset) (dr dr' : list Date) (sel sel' : string) :
  region_filter sel (date_filter dr df) = date_filter dr (region_filter sel df)
  /\ date_filter dr (date_filter dr' df) = date_filter dr' (date_filter dr df)
  /\ region_filter sel (region_filter sel' df)
     = region_filter sel' (region_filter sel df).
Proof.
  repeat split.
  - rewrite !region_filter_as_filter, !date_filter_as_filter.
    destruct (negb (String.eqb sel Barchasi)), (List.length dr =? 2)%nat;
      try reflexivity. apply filter_comm.
  - rewrite !date_filter_as_filter.
    destruct (List.length dr =? 2)%nat, (List.length dr' =? 2)%nat;
      try reflexivity. apply filter_comm.
  - rewrite !region_filter_as_filter.
    destruct (negb (String.eqb sel Barchasi)), (negb (String.eqb sel' Barchasi));
      try reflexivity. apply filter_comm.
Qed.

(** X5.  Filtering a second time with the same input changes nothing. *)
Theorem filters_idempotent (df : Dataset) (dr : list Date) (sel : string) :
  date_filter dr (date_filter dr df) = date_filter dr df
  /\ region_filter sel (region_filter sel df) = region_filter sel df.
Proof.
  split.
  - rewrite !date_filter_as_filter.
    destruct (List.length dr =? 2)%nat; [apply filter_idem | reflexivity].
  - rewrite !region_filter_as_filter.
    destruct (negb (String.eqb sel Barchasi)); [apply filter_idem | reflexivity].
Qed.

(** X6.  A range whose start is after its end selects no row. *)
Theorem date_filter_reversed_range (df : Dataset) (start end_ : Date) :
  date_le start end_ = false -> date_filter [start; end_] df = [].
Proof.
  intros Hrev. rewrite date_filter_pair. apply filter_none.
  intros r _. destruct (in_range start end_ r) eqn:E; [|reflexivity].
  exfalso. apply in_range_iff in E. destruct E as (d & _ & E1 & E2).
  pose proof (Date_le_trans _ _ _ E1 E2) as H. apply date_le_iff in H. congruence.
Qed.

Lemma date_filter_reversed_range_witness :
  date_filter [mkDate 2024 1 3; mkDate 2024 1 1] example_rows = [].
Proof. apply date_filter_reversed_range. reflexivity. Defined.

(** X7.  Narrowing to a range and then filtering with a range that contains
    it, in either order, gives the rows of the narrow range. *)
Theorem date_filter_nested_ranges (df : Dataset) (s e s' e' : Date) :
  Date_le s' s -> Date_le e e' ->
  date_filter [s'; e'] (date_filter [s; e] df) = date_filter [s; e] df
  /\ date_filter [s; e] (date_filter [s'; e'] df) = date_filter [s; e] df.
Proof.
  intros Hs He.
  assert (G : date_filter [s'; e'] (date_filter [s; e] df) = date_filter [s; e] df).
  { rewrite (date_filter_pair s' e'). apply filter_all.
    intros r Hr. rewrite date_filter_pair in Hr. apply filter_In in Hr.
    destruct Hr as [_ Hr]. apply in_range_iff in Hr.
    destruct Hr as (d & Ed & H1 & H2).
    apply in_range_iff. exists d. split; [exact Ed|]. split.
    - eapply Date_le_trans; eassumption.
    - eapply Date_le_trans; eassumption. }
  split; [exact G|].
  rewrite !date_filter_pair, filter_comm, <- !date_filter_pair. exact G.
Qed.

Lemma date_filter_nested_ranges_witness :
  date_filter [mkDate 2024 1 1; mkDate 2024 1 3]
    (date_filter [mkDate 2024 1 2; mkDate 2024 1 2] example_rows)
  = date_filter [mkDate 2024 1 2; mkDate 2024 1 2] example_rows.
Proof.
  apply (date_filter_nested_ranges example_rows).
  - unfold Date_le; simpl; lia.
  - unfold Date_le; simpl; lia.
Defined.

(** ** The bounds of the date picker (lines 94-102) *)

Lemma series_min_spec (s : list (option Date)) :
  match series_min s with
  | None => forall d, ~ In (Some d) s
  | Some m => In (Some m) s /\ forall d, In (Some d) s -> date_le m d = true
  end.
Proof.
  induction s as [|x s IH]; [intros d []|].
  cbn [series_min]. destruct x as [a|].
  - destruct (series_min s) as [m|].
    + destruct IH as [Hin Hle]. destruct (date_le a m) eqn:E.
      * split; [now left|]. intros d [Ed|Hd].
        -- injection Ed as <-. apply date_le_iff, Date_le_refl.
        -- specialize (Hle d Hd). apply date_le_iff in E, Hle. apply date_le_iff.
           eapply Date_le_trans; eassumption.
      * split; [now right|]. intros d [Ed|Hd].
        -- injection Ed as <-. now apply date_le_total.
        -- now apply Hle.
    + split; [now left|]. intros d [Ed|Hd].
      * injection Ed as <-. apply date_le_iff, Date_le_refl.
      * exfalso. exact (IH d Hd).
  - destruct (series_min s) as [m|].
    + destruct IH as [Hin Hle]. split; [now right|].
      intros d [Ed|Hd]; [discriminate | now apply Hle].
    + intros d [Ed|Hd]; [discriminate | exact (IH d Hd)].
Qed.

Lemma series_max_spec (s : list (option Date)) :
  match series_max s with
  | None => forall d, ~ In (Some d) s
  | Some m => In (Some m) s /\ forall d, In (Some d) s -> date_le d m = true
  end.
Proof.
  induction s as [|x s IH]; [intros d []|].
  cbn [series_max]. destruct x as [a|].
  - destruct (series_max s) as [m|].
    + destruct IH as [Hin Hle]. destruct (date_le m a) eqn:E.
      * split; [now left|]. intros d [Ed|Hd].
        -- injection Ed as <-. apply date_le_iff, Date_le_refl.
        -- specialize (Hle d Hd). apply date_le_iff in E, Hle. apply date_le_iff.
           eapply Date_le_trans; eassumption.
      * split; [now right|]. intros d [Ed|Hd].
        -- injection Ed as <-. now apply date_le_total.
        -- now apply Hle.
    + split; [now left|]. intros d [Ed|Hd].
      * injection Ed as <-. apply date_le_iff, Date_le_refl.
      * exfalso. exact (IH d Hd).
  - destruct (series_max s) as [m|].
    + destruct IH as [Hin Hle]. split; [now right|].
      intros d [Ed|Hd]; [discriminate | now apply Hle].
    + intros d [Ed|Hd]; [discriminate | exact (IH d Hd)].
Qed.

(** X8.  On a table with at least one dated row the picker's bounds exist
    (rows without a date are skipped), are dates of rows of the table, are
    in order and bracket every dated row; the default range they form keeps
    exactly the rows that have a date, dropping those whose date is
    missing, so it keeps every row when no date is missing. *)
Theorem default_range_keeps_dated_rows (df : Dataset) :
  (exists r, In r df /\ date r <> None) ->
  exists lo hi,
    min_date df = Some lo /\ max_date df = Some hi
    /\ In (Some lo) (col date df) /\ In (Some hi) (col date df)
    /\ Date_le lo hi
    /\ (forall r d, In r df -> date r = Some d -> Date_le lo d /\ Date_le d hi)
    /\ date_filter [lo; hi] df = dated df
    /\ ((forall r, In r df -> date r <> None) -> date_filter [lo; hi] df = df).
Proof.
  intros (r0 & Hr0 & Hd0).
  destruct (date r0) as [d0|] eqn:E0; [clear Hd0 | congruence].
  assert (Hin0 : In (Some d0) (col date df)).
  { unfold col. rewrite <- E0. now apply in_map. }
  pose proof (series_min_spec (col date df)) as Hmin.
  pose proof (series_max_spec (col date df)) as Hmax.
  unfold min_date, max_date.
  destruct (series_min (col date df)) as [lo|]; [|exfalso; exact (Hmin d0 Hin0)].
  destruct (series_max (col date df)) as [hi|]; [|exfalso; exact (Hmax d0 Hin0)].
  destruct Hmin as [Hlo_in Hlo_le]. destruct Hmax as [Hhi_in Hhi_le].
  exists lo, hi.
  split; [reflexivity|]. split; [reflexivity|].
  split; [exact Hlo_in|]. split; [exact Hhi_in|].
  split; [apply date_le_iff, Hlo_le, Hhi_in|].
  assert (Hall : forall r d, In r df -> date r = Some d ->
                             date_le lo d = true /\ date_le d hi = true).
  { intros r d Hr Ed.
    assert (Hd : In (Some d) (col date df)) by (unfold col; rewrite <- Ed; now apply in_map).
    split; [now apply Hlo_le | now apply Hhi_le]. }
  assert (Hdated : date_filter [lo; hi] df = dated df).
  { rewrite date_filter_pair. unfold dated.
    clear - Hall. induction df as [|r df IH]; [reflexivity|].
    simpl. unfold in_range at 1, has_date at 1, keyed.
    destruct (date r) as [d|] eqn:Ed.
    - destruct (Hall r d) as [-> ->]; [now left | exact Ed |]. simpl.
      f_equal. apply IH. intros r' d' Hr'. apply Hall. now right.
    - apply IH. intros r' d' Hr'. apply Hall. now right. }
  split.
  - intros r d Hr Ed. destruct (Hall r d Hr Ed). now rewrite <- !date_le_iff.
  - split; [exact Hdated|]. intros Hnone. rewrite Hdated. unfold dated.
    clear - Hnone. induction df as [|r df IH]; [reflexivity|].
    simpl. unfold has_date at 1, keyed.
    destruct (date r) eqn:Er; [|exfalso; apply (Hnone r); [now left | exact Er]].
    f_equal. apply IH. intros r' Hr'. apply Hnone. now right.
Qed.

Lemma default_range_keeps_dated_rows_witness :
  exists lo hi,
    min_date undated_rows = Some lo /\ max_date undated_rows = Some hi
    /\ date_filter [lo; hi] undated_rows
       = [ mkRow (Some (mkDate 2024 1 1)) (Some 100) (Some 10) "Product A" "Tashkent" ].
Proof.
  destruct (default_range_keeps_dated_rows undated_rows)
    as (lo & hi & H1 & H2 & _ & _ & _ & _ & H3 & _).
  - eexists. split; [left; reflexivity | discriminate].
  - exists lo, hi. split; [exact H1|]. split; [exact H2|].
    rewrite H3. reflexivity.
Defined.

(** ** The region selector (lines 108-112) *)

Lemma unique_In (s : list string) (x : string) : In x (unique s) <-> In x s.
Proof.
  induction s as [|y s IH]; simpl; [tauto|].
  rewrite filter_In, IH. split.
  - intros [E|[H _]]; [now left | now right].
  - intros [E|H]; [now left|].
    destruct (String.eqb_spec x y) as [E'|N]; [left; congruence|].
    right. split; [exact H|]. destruct (String.eqb_spec x y); [contradiction | reflexivity].
Qed.

Lemma unique_NoDup (s : list string) : NoDup (unique s).
Proof.
  induction s as [|y s IH]; simpl; constructor.
  - rewrite filter_In. intros [_ H]. now rewrite String.eqb_refl in H.
  - now apply NoDup_filter.
Qed.

Lemma insert_sorted_perm (x : string) (l : list string) :
  Permutation (x :: l) (insert_sorted x l).
Proof.
  induction l as [|y l IH]; simpl; [apply Permutation_refl|].
  destruct (String.leb x y); [apply Permutation_refl|].
  eapply perm_trans; [apply perm_swap|]. now apply perm_skip.
Qed.

Lemma sorted_perm (l : list string) : Permutation l (sorted l).
Proof.
  induction l as [|x l IH]; simpl; [constructor|].
  eapply perm_trans; [apply perm_skip, IH | apply insert_sorted_perm].
Qed.

Lemma string_leb_trans (a b c : string) :
  String.leb a b = true -> String.leb b c = true -> String.leb a c = true.
Proof.
  unfold String.leb.
  destruct (String.compare a b) eqn:Eab; try discriminate;
    destruct (String.compare b c) eqn:Ebc; try discriminate; intros _ _.
  - apply String.compare_eq_iff in Eab, Ebc. subst. now rewrite string_compare_refl.
  - apply String.compare_eq_iff in Eab. subst. now rewrite Ebc.
  - apply String.compare_eq_iff in Ebc. subst. now rewrite Eab.
  - now rewrite (string_compare_trans a b c Eab Ebc).
Qed.

Lemma insert_sorted_sorted (x : string) (l : list string) :
  StronglySorted (fun a b => String.leb a b = true) l ->
  StronglySorted (fun a b => String.leb a b = true) (insert_sorted x l).
Proof.
  induction 1 as [|y l Hl IH Hy]; simpl.
  - repeat constructor.
  - destruct (String.leb x y) eqn:E.
    + constructor; [now constructor|].
      constructor; [exact E|].
      eapply Forall_impl; [|exact Hy]. intros z Hz. eapply string_leb_trans; eassumption.
    + constructor; [exact IH|].
      eapply Permutation_Forall; [apply insert_sorted_perm|].
      constructor; [|exact Hy].
      destruct (String.leb_total x y) as [H|H]; [congruence | exact H].
Qed.

Lemma sorted_sorted (l : list string) :
  StronglySorted (fun a b => String.leb a b = true) (sorted l).
Proof.
  induction l as [|x l IH]; simpl; [constructor|].
  now apply insert_sorted_sorted.
Qed.

Lemma sorted_strictly (l : list string) :
  NoDup l ->
  StronglySorted (fun a b => String.leb a b = true) l ->
  StronglySorted (fun a b => String.compare a b = Lt) l.
Proof.
  intros Hnd Hs. induction Hs as [|x l Hl IH Hx]; constructor.
  - apply IH. now inversion Hnd.
  - inversion Hnd as [|? ? Hnot _]; subst.
    rewrite Forall_forall in *. intros y Hy. specialize (Hx y Hy).
    unfold String.leb in Hx.
    destruct (String.compare x y) eqn:E; try discriminate; [|reflexivity].
    apply String.compare_eq_iff in E. subst. contradiction.
Qed.

Lemma region_options_rest (df : Dataset) :
  StronglySorted (fun a b => String.compare a b = Lt) (sorted (unique (col region df)))
  /\ (forall x, In x (sorted (unique (col region df))) <->
                exists r, In r df /\ region r = x).
Proof.
  split.
  - apply sorted_strictly; [|apply sorted_sorted].
    eapply Permutation_NoDup; [apply sorted_perm | apply unique_NoDup].
  - intros x. split.
    + intros Hx. apply (Permutation_in _ (Permutation_sym (sorted_perm _))) in Hx.
      apply (proj1 (unique_In _ _)) in Hx. unfold col in Hx.
      apply (proj1 (in_map_iff _ _ _)) in Hx.
      destruct Hx as (r & E & Hr). now exists r.
    + intros (r & Hr & E). apply (Permutation_in _ (sorted_perm _)).
      apply (proj2 (unique_In _ _)). unfold col.
      apply (proj2 (in_map_iff _ _ _)). now exists r.
Qed.

(** X9.  The selector offers the sentinel first, then the regions that
    occur in the table, each once, in strictly ascending order of their
    names. *)
Theorem region_options_spec (df : Dataset) :
  exists rest,
    region_options df = Barchasi :: rest
    /\ StronglySorted (fun a b => String.compare a b = Lt) rest
    /\ (forall x, In x rest <-> exists r, In r df /\ region r = x).
Proof.
  exists (sorted (unique (col region df))). split; [reflexivity|].
  apply region_options_rest.
Qed.

(** X10.  Whatever option of the selector is chosen, the view of a table
    that has rows is not empty: the selector offers no region without
    rows. *)
Theorem offered_region_has_rows (df : Dataset) (x : string) :
  df <> [] -> In x (region_options df) -> region_filter x df <> [].
Proof.
  intros Hne Hx. rewrite region_filter_as_filter.
  destruct (String.eqb_spec x Barchasi) as [E|N]; simpl; [exact Hne|].
  destruct (region_options_rest df) as (_ & Hrest).
  unfold region_options in Hx. destruct Hx as [E|Hx]; [congruence|].
  apply Hrest in Hx. destruct Hx as (r & Hr & E).
  intros Hempty.
  assert (Hin : In r (filter (fun r0 => String.eqb (region r0) x) df)).
  { apply filter_In. split; [exact Hr|]. now apply String.eqb_eq. }
  rewrite Hempty in Hin. destruct Hin.
Qed.

Lemma offered_region_has_rows_witness :
  region_filter "Bukhara" example_rows <> [].
Proof.
  apply offered_region_has_rows; [discriminate|].
  vm_compute. tauto.
Defined.

Lemma class_total_region (k : string) (df : Dataset) :
  k <> Barchasi ->
  class_total region sales k df = total_sales (region_filter k df).
Proof.
  intros Hk. rewrite (region_filter_specific k df Hk).
  unfold class_total, total_sales, col. f_equal. f_equal.
  apply filter_ext. intros r. apply same_key_string.
Qed.







(** ** Month keys and file names keep the order of time *)

Lemma string_app_assoc (a b c : string) : ((a ++ b) ++ c = a ++ (b ++ c))%string.
Proof. induction a as [|x a IH]; simpl; [reflexivity | now rewrite IH]. Qed.

(** Comparing two strings that start with chunks of the same length. *)
Lemma string_compare_app (s1 s2 t1 t2 : string) :
  String.length s1 = String.length s2 ->
  String.compare (s1 ++ t1) (s2 ++ t2)
  = match String.compare s1 s2 with
    | Eq => String.compare t1 t2
    | c => c
    end.
Proof.
  revert s2. induction s1 as [|x s1 IH]; intros [|y s2]; simpl; try discriminate.
  - reflexivity.
  - intros E. injection E as E. destruct (Ascii.compare x y); auto.
Qed.

Lemma pad2_compare (a b : Z) :
  0 <= a < 100 -> 0 <= b < 100 -> String.compare (pad2 a) (pad2 b) = (a ?= b).
Proof.
  intros Ha Hb.
  assert (H : forallb (fun x => forallb (fun y =>
                comparison_eqb (String.compare (pad2 (Z.of_nat x)) (pad2 (Z.of_nat y)))
                               (Z.of_nat x ?= Z.of_nat y))
                (seq 0 100)) (seq 0 100) = true) by (vm_compute; reflexivity).
  rewrite forallb_forall in H. specialize (H (Z.to_nat a)).
  rewrite in_seq in H.
  assert (H' : forallb (fun y =>
                comparison_eqb (String.compare (pad2 (Z.of_nat (Z.to_nat a))) (pad2 (Z.of_nat y)))
                               (Z.of_nat (Z.to_nat a) ?= Z.of_nat y))
                (seq 0 100) = true) by (apply H; lia).
  rewrite forallb_forall in H'. specialize (H' (Z.to_nat b)).
  rewrite in_seq in H'.
  assert (H'' : comparison_eqb
                  (String.compare (pad2 (Z.of_nat (Z.to_nat a))) (pad2 (Z.of_nat (Z.to_nat b))))
                  (Z.of_nat (Z.to_nat a) ?= Z.of_nat (Z.to_nat b)) = true) by (apply H'; lia).
  rewrite !Z2Nat.id in H'' by lia.
  destruct (String.compare (pad2 a) (pad2 b)), (a ?= b); simpl in H''; congruence.
Qed.

Lemma pad2_length (n : Z) : String.length (pad2 n) = 2%nat.
Proof. reflexivity. Qed.

Lemma pad4_length (n : Z) : String.length (pad4 n) = 4%nat.
Proof. reflexivity. Qed.

Lemma digit_char_mod (a b : Z) : a mod 10 = b mod 10 -> digit_char a = digit_char b.
Proof. unfold digit_char. now intros ->. Qed.

Lemma pad4_split (n : Z) : (pad4 n = pad2 (n / 100) ++ pad2 (n mod 100))%string.
Proof.
  unfold pad4, pad2. cbn [append].
  f_equal; [|f_equal; f_equal; [|f_equal]]; apply digit_char_mod.
  - rewrite Z.div_div by lia. reflexivity.
  - Z.to_euclidean_division_equations. lia.
  - Z.to_euclidean_division_equations. lia.
Qed.

Lemma compare_hundreds (a b : Z) :
  match a / 100 ?= b / 100 with
  | Eq => a mod 100 ?= b mod 100
  | c => c
  end = (a ?= b).
Proof.
  destruct (Z.compare_spec (a / 100) (b / 100));
    destruct (Z.compare_spec (a mod 100) (b mod 100));
    destruct (Z.compare_spec a b); try reflexivity;
    Z.to_euclidean_division_equations; lia.
Qed.

Lemma pad4_compare (a b : Z) :
  0 <= a < 10000 -> 0 <= b < 10000 -> String.compare (pad4 a) (pad4 b) = (a ?= b).
Proof.
  intros Ha Hb. rewrite !pad4_split, string_compare_app by reflexivity.
  rewrite !pad2_compare by (Z.to_euclidean_division_equations; lia).
  apply compare_hundreds.
Qed.

(** X13.  For four-digit years the month keys 'YYYY-MM' compare as strings
    the way the months they name compare in time, so the sorted keys of the
    monthly table are in calendar order; and two dates get the same key
    exactly when they fall in the same month of the same year. *)
Theorem period_M_order (a b : Date) :
  0 <= year a <= 9999 -> 0 <= year b <= 9999 ->
  1 <= month a <= 12 -> 1 <= month b <= 12 ->
  String.compare (period_M a) (period_M b) = month_compare a b
  /\ (period_M a = period_M b <-> year a = year b /\ month a = month b).
Proof.
  intros Hya Hyb Hma Hmb.
  assert (C : String.compare (period_M a) (period_M b) = month_compare a b).
  { unfold period_M, month_compare.
    rewrite string_compare_app by reflexivity.
    rewrite pad4_compare by lia.
    destruct (year a ?= year b); try reflexivity.
    change (String.compare ("-" ++ pad2 (month a)) ("-" ++ pad2 (month b)))
      with (String.compare (pad2 (month a)) (pad2 (month b))).
    apply pad2_compare; lia. }
  split; [exact C|]. split.
  - intros E. rewrite E, string_compare_refl in C. symmetry in C.
    unfold month_compare in C.
    destruct (Z.compare_spec (year b) (year b)); try lia.
    destruct (Z.compare_spec (year a) (year b)); try discriminate.
    destruct (Z.compare_spec (month a) (month b)); try discriminate.
    now split.
  - intros [Ey Em]. unfold period_M. now rewrite Ey, Em.
Qed.

Lemma period_M_order_witness :
  String.compare (period_M (mkDate 2023 12 31)) (period_M (mkDate 2024 1 1)) = Lt.
Proof.
  pose proof (period_M_order (mkDate 2023 12 31) (mkDate 2024 1 1)) as H.
  cbn [year month] in H. destruct H as [H _]; [lia | lia | lia | lia |].
  rewrite H. reflexivity.
Defined.

(** X14.  The names of the downloads of two days compare as strings the
    way the days compare: the files sort by date, and two days never share
    a name. *)
Theorem download_name_order (a b : Date) :
  1000 <= year a <= 9999 -> 1000 <= year b <= 9999 ->
  valid_date a = true -> valid_date b = true ->
  String.compare (download_name a) (download_name b) = date_compare a b
  /\ (download_name a = download_name b -> a = b).
Proof.
  intros Hya Hyb Hva Hvb.
  assert (B : forall d, valid_date d = true -> 1 <= month d <= 12 /\ 1 <= day d <= 31).
  { intros d Hv. unfold valid_date in Hv.
    apply andb_prop in Hv. destruct Hv as [Hv H4].
    apply andb_prop in Hv. destruct Hv as [Hv H3].
    apply andb_prop in Hv. destruct Hv as [H1 H2].
    apply Z.leb_le in H1, H2, H3, H4.
    assert (days_in_month (year d) (month d) <= 31).
    { unfold days_in_month.
      destruct (month d =? 2); [destruct (is_leap (year d)); lia|].
      destruct ((month d =? 4) || (month d =? 6) || (month d =? 9) || (month d =? 11)); lia. }
    lia. }
  destruct (B a Hva) as [Hma Hda]. destruct (B b Hvb) as [Hmb Hdb].
  assert (C : String.compare (download_name a) (download_name b) = date_compare a b).
  { unfold download_name, strftime_Ymd, date_compare.
    rewrite (string_compare_app "sales_" "sales_") by reflexivity.
    change (String.compare "sales_" "sales_") with Eq. cbv iota.
    rewrite !string_app_assoc.
    rewrite string_compare_app by reflexivity.
    rewrite pad4_compare by lia.
    destruct (year a ?= year b); try reflexivity.
    rewrite string_compare_app by reflexivity.
    rewrite pad2_compare by lia.
    destruct (month a ?= month b); try reflexivity.
    rewrite string_compare_app by reflexivity.
    rewrite pad2_compare by lia.
    destruct (day a ?= day b); reflexivity. }
  split; [exact C|].
  intros E. rewrite E, string_compare_refl in C. symmetry in C.
  now apply date_compare_eq.
Qed.

Lemma download_name_order_witness :
  download_name (mkDate 2024 2 29) = "sales_20240229.csv"
  /\ String.compare (download_name (mkDate 2024 2 29)) (download_name (mkDate 2024 3 1)) = Lt.
Proof.
  split; [reflexivity|].
  pose proof (download_name_order (mkDate 2024 2 29) (mkDate 2024 3 1)) as H.
  cbn [year] in H. destruct H as [H _]; [lia | lia | reflexivity | reflexivity |].
  rewrite H. reflexivity.
Defined.

(** ** The shape of the grouped tables *)

(** X15.  The tables by date, by product and by month list their groups in
    strictly ascending order of the key (dates in time order, labels in
    string order), so no key appears twice and each chart is drawn in key
    order. *)
Theorem grouped_tables_ascending (df : Dataset) :
  StronglySorted (fun a b => date_compare (fst a) (fst b) = Lt) (daily_sales df)
  /\ StronglySorted (fun a b => String.compare (fst a) (fst b) = Lt) (product_sales df)
  /\ StronglySorted (fun a b => String.compare (fst a) (fst b) = Lt) (monthly_sales df).
Proof.
  split; [|split].
  - exact (groupby_sum_sorted date sales df).
  - exact (groupby_sum_sorted (present product) sales df).
  - exact (groupby_sum_sorted month_col sales df).
Qed.

Section Ascending.
Context {K : Type} `{KeyOrder K}.
Variable key : Row -> K.
Variable value : Row -> option Z.

Lemma bucket_add_last (k : K) (v : option Z) (g : list (K * Z)) :
  Forall (fun y => key_compare (fst y) k = Lt) g ->
  bucket_add k v g = (g ++ [(k, value_or_0 v)])%list.
Proof.
  induction 1 as [|[k' s] g Hy _ IH]; [reflexivity|].
  cbn [bucket_add app]. simpl in Hy.
  rewrite (key_compare_antisym k k'), Hy. cbn [CompOpp]. now rewrite IH.
Qed.

Lemma fold_bucket_add_ascending (df : Dataset) (g : list (K * Z)) :
  StronglySorted (fun a b => key_compare a b = Lt) (map key df) ->
  (forall y r, In y g -> In r df -> key_compare (fst y) (key r) = Lt) ->
  fold_left (fun groups r => bucket_add (key r) (value r) groups) df g
  = (g ++ map (fun r => (key r, value_or_0 (value r))) df)%list.
Proof.
  revert g. induction df as [|r df IH]; intros g Hs Hg; cbn [fold_left map].
  - now rewrite app_nil_r.
  - inversion Hs as [|? ? Hs' Hr]; subst.
    rewrite bucket_add_last.
    + rewrite IH; [now rewrite <- app_assoc | exact Hs' |].
      intros y r' Hy Hr'. apply in_app_or in Hy. destruct Hy as [Hy|[<-|[]]].
      * apply Hg; [exact Hy | now right].
      * simpl. rewrite Forall_forall in Hr. apply Hr. now apply in_map.
    + apply Forall_forall. intros y Hy. apply Hg; [exact Hy | now left].
Qed.

Lemma group_rows_ascending (df : Dataset) :
  StronglySorted (fun a b => key_compare a b = Lt) (map key df) ->
  group_rows key value df = map (fun r => (key r, value_or_0 (value r))) df.
Proof.
  intros Hs. unfold group_rows. rewrite fold_bucket_add_ascending; [reflexivity | exact Hs |].
  intros y r [].
Qed.

Lemma bucket_add_keys_only (k : K) (v : option Z) (g : list (K * Z)) :
  map fst (bucket_add k v g) = key_add k (map fst g).
Proof.
  induction g as [|[k' s] g IH]; [reflexivity|].
  cbn [bucket_add key_add map fst].
  destruct (key_compare k k'); cbn [map fst]; [reflexivity | reflexivity | now rewrite IH].
Qed.

Lemma group_rows_keys (df : Dataset) :
  map fst (group_rows key value df) = group_keys (map key df).
Proof.
  unfold group_rows, group_keys.
  change (@nil K) with (map fst (@nil (K * Z))).
  generalize (@nil (K * Z)) as g.
  induction df as [|r df IH]; intros g; cbn [fold_left map]; [reflexivity|].
  rewrite IH, bucket_add_keys_only. reflexivity.
Qed.

End Ascending.

Lemma dropna_filter_sorted {A B} (R : B -> B -> Prop) (f : A -> option B)
      (p : A -> bool) (l : list A) :
  StronglySorted R (dropna (map f l)) -> StronglySorted R (dropna (map f (filter p l))).
Proof.
  induction l as [|x l IH]; [trivial|].
  cbn [map filter]. unfold dropna in *. cbn [flat_map].
  destruct (f x) as [y|] eqn:E.
  - cbn [app]. intros Hs. inversion Hs as [|? ? Hs' Hx]; subst.
    destruct (p x); [|now apply IH].
    cbn [map flat_map]. rewrite E. cbn [app]. constructor; [now apply IH|].
    rewrite Forall_forall in *. intros z Hz. apply Hx.
    apply in_flat_map in Hz. destruct Hz as (o & Ho & Hz).
    apply in_flat_map. exists o. split; [|exact Hz].
    apply in_map_iff in Ho. destruct Ho as (a & <- & Ha).
    apply filter_In in Ha. apply in_map, Ha.
  - cbn [app]. intros Hs. destruct (p x); [|now apply IH].
    cbn [map flat_map]. rewrite E. cbn [app]. now apply IH.
Qed.

Lemma view_keeps_date_order (df : Dataset) (dr : list Date) (sel : string) :
  StronglySorted (fun a b => date_compare a b = Lt) (dropna (col date df)) ->
  StronglySorted (fun a b => date_compare a b = Lt)
                 (dropna (col date (region_filter sel (date_filter dr df)))).
Proof.
  intros Hs. unfold col in *.
  rewrite region_filter_as_filter, date_filter_as_filter.
  destruct (negb (String.eqb sel Barchasi)), (List.length dr =? 2)%nat;
    repeat apply dropna_filter_sorted; exact Hs.
Qed.

Lemma view_rows (df : Dataset) (dr : list Date) (sel : string) (r : Row) :
  In r (region_filter sel (date_filter dr df)) -> In r df.
Proof.
  rewrite region_filter_as_filter, date_filter_as_filter.
  destruct (negb (String.eqb sel Barchasi)), (List.length dr =? 2)%nat;
    intros Hr; repeat (apply filter_In in Hr; destruct Hr as [Hr _]); exact Hr.
Qed.

Lemma dropna_dated (d : Date) (df : Dataset) :
  map (fun r => key_or d (date r)) (dated df) = dropna (col date df).
Proof.
  unfold dated, col, dropna. induction df as [|r df IH]; [reflexivity|].
  cbn [filter map flat_map]. unfold has_date at 1, keyed.
  destruct (date r) as [x|] eqn:E; cbn [app map]; [|exact IH].
  rewrite E. cbn [key_or]. now rewrite IH.
Qed.

Lemma dated_all (df : Dataset) :
  (forall r, In r df -> date r <> None) -> dated df = df.
Proof.
  intros Hall. apply filter_all. intros r Hr. unfold has_date, keyed.
  specialize (Hall r Hr). now destruct (date r).
Qed.

Lemma daily_sales_in_date_order (df : Dataset) :
  StronglySorted (fun a b => date_compare a b = Lt) (dropna (col date df)) ->
  map as_cell (daily_sales df)
  = map (fun r => (date r, value_or_0 (sales r))) (dated df).
Proof.
  intros Hs. unfold daily_sales. rewrite (groupby_sum_dropna first_day).
  change (filter (keyed date) df) with (dated df).
  rewrite group_rows_ascending by (rewrite dropna_dated; exact Hs).
  rewrite map_map. apply map_ext_in. intros r Hr.
  apply filter_In in Hr. destruct Hr as [_ Hr]. unfold has_date, keyed in Hr.
  unfold as_cell. cbn [fst snd]. now destruct (date r).
Qed.

(** X16.  On a table whose rows are in date order with no date twice
    (rows without a date aside: grouping skips them), and on any view the
    filters make of it, the table by date is the [sales] column of the
    dated rows itself, row by row (a missing value counting as 0):
    grouping by date merges nothing.  When no date is missing this is the
    whole [sales] column. *)
Theorem daily_sales_of_distinct_days
        (df : Dataset) (date_range : list Date) (selected_region : string) :
  StronglySorted (fun a b => date_compare a b = Lt) (dropna (col date df)) ->
  map as_cell (daily_sales df)
  = map (fun r => (date r, value_or_0 (sales r))) (dated df)
  /\ map as_cell (chart_daily (main df date_range selected_region))
     = map (fun r => (date r, value_or_0 (sales r)))
           (dated (view (main df date_range selected_region)))
  /\ ((forall r, In r df -> date r <> None) ->
      map as_cell (daily_sales df)
      = map (fun r => (date r, value_or_0 (sales r))) df
      /\ map as_cell (chart_daily (main df date_range selected_region))
         = map (fun r => (date r, value_or_0 (sales r)))
               (view (main df date_range selected_region))).
Proof.
  intros Hs.
  assert (H1 := daily_sales_in_date_order df Hs).
  assert (H2 := daily_sales_in_date_order _
                  (view_keeps_date_order df date_range selected_region Hs)).
  split; [exact H1|]. split; [exact H2|].
  intros Hall. split.
  - rewrite H1. now rewrite dated_all.
  - unfold main; cbn [chart_daily view]. rewrite H2.
    rewrite dated_all; [reflexivity|].
    intros r Hr. apply Hall. eapply view_rows. exact Hr.
Qed.

Lemma daily_sales_of_distinct_days_witness :
  daily_sales example_rows
  = [(mkDate 2024 1 1, 50000); (mkDate 2024 1 2, 50105); (mkDate 2024 1 3, 50210)]
  /\ map as_cell (daily_sales undated_rows) = [(Some (mkDate 2024 1 1), 100)].
Proof.
  split; [reflexivity|].
  destruct (daily_sales_of_distinct_days undated_rows [] Barchasi) as [H _].
  - repeat constructor.
  - rewrite H. reflexivity.
Defined.

Lemma dropna_map_Some {A} (l : list A) : dropna (map Some l) = l.
Proof. unfold dropna. induction l as [|x l IH]; [reflexivity|]. cbn [map flat_map app]. now rewrite IH. Qed.

Lemma dates_2024_ascending :
  StronglySorted (fun a b => date_compare a b = Lt) dates_2024.
Proof.
  apply Sorted_StronglySorted.
  - intros a b c. apply date_compare_lt_trans.
  - assert (G : forall l : list Date,
               (fix check (l : list Date) : bool :=
                  match l with
                  | x :: ((y :: _) as l') =>
                      match date_compare x y with Lt => check l' | _ => false end
                  | _ => true
                  end) l = true ->
               Sorted (fun a b => date_compare a b = Lt) l).
    { induction l as [|x l IH]; [constructor|].
      destruct l as [|y l]; [repeat constructor|].
      destruct (date_compare x y) eqn:E; try discriminate.
      intros Hc. constructor; [now apply IH | now constructor]. }
    apply G. vm_compute. reflexivity.
Qed.

Lemma monthly_sales_keys (df : Dataset) :
  map fst (monthly_sales df) = group_keys (map period_M (dropna (col date df))).
Proof.
  unfold monthly_sales. rewrite (groupby_sum_dropna EmptyString), group_rows_keys.
  f_equal. unfold col, dropna. induction df as [|r df IH]; [reflexivity|].
  cbn [filter map flat_map]. rewrite keyed_month_col. unfold has_date, keyed.
  destruct (date r) as [d|] eqn:E; cbn [app map]; [|exact IH].
  unfold month_col at 1. rewrite E. cbn [option_map key_or]. f_equal. exact IH.
Qed.

(** X17.  Whatever the generator state, the charts of the demo table have
    a fixed shape: the table by month has the twelve months of 2024 in
    order, the table by date has one point per row (366 unfiltered), and
    the tables by product and by region have at most four groups, named
    among the four products and the four regions. *)
Theorem demo_charts_shape (w : World) :
  exists df w',
    create_demo_data w = (Ok df, w')
    /\ map fst (monthly_sales df) = months_2024
    /\ List.length (daily_sales df) = 366%nat
    /\ (forall date_range selected_region,
          map as_cell (chart_daily (main df date_range selected_region))
          = map (fun r => (date r, value_or_0 (sales r)))
                (view (main df date_range selected_region)))
    /\ (forall k s, In (k, s) (product_sales df) -> In k products)
    /\ (forall k s, In (k, s) (region_sales df) -> In k regions)
    /\ (List.length (product_sales df) <= 4)%nat
    /\ (List.length (region_sales df) <= 4)%nat.
Proof.
  exists (map (demo_row w) (seq 0 366)), (advance 1464 w).
  split; [apply create_demo_data_run|].
  set (df := map (demo_row w) (seq 0 366)).
  assert (Hd : StronglySorted (fun a b => date_compare a b = Lt) (dropna (col date df))).
  { unfold df. rewrite demo_rows_dates, dropna_map_Some. apply dates_2024_ascending. }
  assert (Hall : forall r, In r df -> date r <> None).
  { intros r Hr. unfold df in Hr. apply in_map_iff in Hr.
    destruct Hr as (i & <- & _). discriminate. }
  assert (Hp : forall k s, In (k, s) (product_sales df) -> In k products).
  { intros k s Hin.
    destruct (group_rows_partition product df) as (_ & _ & Hg).
    destruct (Hg k s Hin) as [(r & Hr & <-) _].
    unfold df in Hr. apply in_map_iff in Hr. destruct Hr as (i & <- & _).
    apply (nth_in_nonempty products). discriminate. }
  assert (Hr : forall k s, In (k, s) (region_sales df) -> In k regions).
  { intros k s Hin. unfold region_sales in Hin.
    apply (Permutation_in _ (Permutation_sym (sort_values_perm _))) in Hin.
    destruct (group_rows_partition region df) as (_ & _ & Hg).
    destruct (Hg k s Hin) as [(r & Hr & <-) _].
    unfold df in Hr. apply in_map_iff in Hr. destruct Hr as (i & <- & _).
    apply (nth_in_nonempty regions). discriminate. }
  split; [|split; [|split; [|split; [|split; [|split]]]]].
  - rewrite monthly_sales_keys. unfold df.
    rewrite demo_rows_dates, dropna_map_Some.
    vm_compute. reflexivity.
  - pose proof (f_equal (@List.length _) (daily_sales_in_date_order df Hd)) as L.
    rewrite !length_map, (dated_all df Hall) in L. rewrite L.
    exact (demo_rows_length w).
  - intros dr sel. unfold main; cbn [chart_daily view].
    rewrite (daily_sales_in_date_order _ (view_keeps_date_order df dr sel Hd)).
    rewrite dated_all; [reflexivity|].
    intros r Hr'. apply Hall. eapply view_rows. exact Hr'.
  - exact Hp.
  - exact Hr.
  - clearbody df.
    destruct (group_rows_partition product df) as (Hnd & _ & _).
    assert (Hincl : incl (map fst (product_sales df)) products).
    { intros k Hk. apply in_map_iff in Hk. destruct Hk as ([k' s] & <- & Hin).
      now apply (Hp k' s). }
    pose proof (NoDup_incl_length Hnd Hincl) as L.
    rewrite length_map in L. exact L.
  - clearbody df.
    destruct (rows_partition_perm region df _ _ (sort_values_perm _)
                (group_rows_partition region df)) as (Hnd & _ & _).
    assert (Hincl : incl (map fst (region_sales df)) regions).
    { intros k Hk. apply in_map_iff in Hk. destruct Hk as ([k' s] & <- & Hin).
      now apply (Hr k' s). }
    pose proof (NoDup_incl_length Hnd Hincl) as L.
    rewrite length_map in L. exact L.
Qed.


Lemma demo_charts_shape_witness :
  exists df w',
    create_demo_data world0 = (Ok df, w')
    /\ In ("Product A", 6525239) (product_sales df)
    /\ In "Product A" products.
Proof.
  destruct (demo_charts_shape world0)
    as (df & w' & Hrun & _ & _ & _ & Hp & _).
  assert (Hin : In ("Product A", 6525239) (product_sales df)).
  { pose proof (create_demo_data_run world0) as E. rewrite Hrun in E.
    apply run_value_inj in E. rewrite E. vm_compute. tauto. }
  exists df, w'. split; [exact Hrun|]. split; [exact Hin|].
  exact (Hp _ _ Hin).
Defined.

(** ** The mean of the sales (line 126) *)

Lemma series_count_acc (s : list (option Z)) (acc : Z) :
  fold_left (fun a v => match v with Some _ => a + 1 | None => a end) s acc
  = acc + series_count s.
Proof.
  unfold series_count.
  enough (G : forall a b,
    fold_left (fun a (v : option Z) => match v with Some _ => a + 1 | None => a end) s (a + b)
    = a + fold_left (fun a (v : option Z) => match v with Some _ => a + 1 | None => a end) s b).
  { specialize (G acc 0). now rewrite Z.add_0_r in G. }
  induction s as [|v s IH]; intros a b; simpl; [reflexivity|].
  destruct v as [x|]; [|apply IH].
  rewrite <- Z.add_assoc. apply IH.
Qed.

Lemma series_count_cons (v : option Z) (s : list (option Z)) :
  series_count (v :: s)
  = (match v with Some _ => 1 | None => 0 end) + series_count s.
Proof.
  unfold series_count at 1; simpl. rewrite series_count_acc. destruct v; lia.
Qed.

Lemma series_count_nonneg (s : list (option Z)) : 0 <= series_count s.
Proof.
  induction s as [|v s IH]; [reflexivity|].
  rewrite series_count_cons. destruct v; lia.
Qed.

Lemma series_count_zero (s : list (option Z)) :
  series_count s = 0 <-> forall v, In v s -> v = None.
Proof.
  induction s as [|v s IH].
  - split; [intros _ v [] | reflexivity].
  - rewrite series_count_cons. pose proof (series_count_nonneg s). split.
    + intros E v' [<-|Hv'].
      * destruct v; [lia | reflexivity].
      * apply IH; [destruct v; lia | exact Hv'].
    + intros Hall. rewrite (Hall v) by now left.
      rewrite (proj2 IH); [reflexivity|]. intros v' Hv'. apply Hall. now right.
Qed.

Lemma series_sum_between (lo hi : Z) (s : list (option Z)) :
  (forall x, In (Some x) s -> lo <= x <= hi) ->
  lo * series_count s <= series_sum s <= hi * series_count s.
Proof.
  induction s as [|v s IH]; intros Hb.
  - rewrite series_sum_nil. unfold series_count; simpl. lia.
  - rewrite series_sum_cons, series_count_cons.
    assert (IH' : lo * series_count s <= series_sum s <= hi * series_count s).
    { apply IH. intros x Hx. apply Hb. now right. }
    destruct v as [x|]; simpl value_or_0.
    + assert (lo <= x <= hi) by (apply Hb; now left). lia.
    + lia.
Qed.

Lemma mean_between (lo hi S n : Z) :
  0 < n -> lo * n <= S <= hi * n ->
  (inject_Z lo <= inject_Z S / inject_Z n <= inject_Z hi)%Q.
Proof.
  intros Hn [Hlo Hhi].
  assert (Hq : (0 < inject_Z n)%Q).
  { change (inject_Z 0 < inject_Z n)%Q. rewrite <- Zlt_Qlt. exact Hn. }
  split.
  - apply Qle_shift_div_l; [exact Hq|].
    rewrite <- inject_Z_mult, <- Zle_Qle. exact Hlo.
  - apply Qle_shift_div_r; [exact Hq|].
    rewrite <- inject_Z_mult, <- Zle_Qle. exact Hhi.
Qed.

(** ** The figures of the demo dashboard *)

Lemma demo_row_bounds_full (w : World) (i : nat) :
  (i < 366)%nat -> demo_bounds_full (demo_row w i).
Proof.
  intros Hi. destruct (demo_row_bounds w i) as (s & c & Hs & Hc & Hsb & Hcb).
  exists s, c. repeat split; try assumption; lia.
Qed.

Lemma demo_totals_between (v : Dataset) :
  Forall demo_bounds_full v ->
  45000 * Z.of_nat (List.length v) <= total_sales v <= 96500 * Z.of_nat (List.length v)
  /\ 80 * Z.of_nat (List.length v) <= total_customers v <= 150 * Z.of_nat (List.length v)
  /\ series_count (col sales v) = Z.of_nat (List.length v).
Proof.
  unfold total_sales, total_customers, col.
  induction 1 as [|r v (s & c & Hs & Hc & Hsb & Hcb) _ IH].
  - simpl. rewrite !series_sum_nil. unfold series_count; simpl. lia.
  - cbn [map List.length].
    rewrite !series_sum_cons, series_count_cons, Hs, Hc. simpl value_or_0. lia.
Qed.

Lemma quotient_between (ts tc : Z) :
  0 < tc -> 300 * tc <= ts -> 4 * ts <= 4825 * tc ->
  (inject_Z 300 <= inject_Z ts / inject_Z tc <= 4825 # 4)%Q.
Proof.
  intros Hpos Hlo Hhi.
  assert (Hq : (0 < inject_Z tc)%Q).
  { change (inject_Z 0 < inject_Z tc)%Q. rewrite <- Zlt_Qlt. exact Hpos. }
  split.
  - apply Qle_shift_div_l; [exact Hq|].
    rewrite <- inject_Z_mult, <- Zle_Qle. exact Hlo.
  - apply Qle_shift_div_r; [exact Hq|].
    unfold Qle, Qmult, inject_Z; cbn [Qnum Qden]. lia.
Qed.

(** X19.  On any non-empty view of the demo table the figures are in a
    fixed range whatever was drawn: the average order value is between 300
    and 1206.25 and the mean of the sales between 45000 and 96500. *)
Theorem demo_figures_range (w : World) :
  exists df w',
    create_demo_data w = (Ok df, w')
    /\ forall date_range selected_region,
         view (main df date_range selected_region) <> [] ->
         (exists q, kpi_avg_order (main df date_range selected_region) = Ok q
                    /\ (inject_Z 300 <= q <= 4825 # 4)%Q)
         /\ (exists m, avg_sales (view (main df date_range selected_region)) = Some m
                       /\ (inject_Z 45000 <= m <= inject_Z 96500)%Q).
Proof.
  exists (map (demo_row w) (seq 0 366)), (advance 1464 w).
  split; [apply create_demo_data_run|].
  intros dr sel. unfold main; cbn [view kpi_avg_order].
  set (v := region_filter sel (date_filter dr (map (demo_row w) (seq 0 366)))).
  intros Hne.
  assert (Hall : Forall demo_bounds_full v).
  { apply Forall_forall. intros r Hr. subst v.
    apply region_filter_incl, date_filter_incl in Hr.
    apply in_map_iff in Hr. destruct Hr as (i & <- & Hi).
    apply in_seq in Hi. apply demo_row_bounds_full. lia. }
  clearbody v.
  destruct (demo_totals_between v Hall) as (Hs & Hc & Hn).
  assert (Hlen : 0 < Z.of_nat (List.length v)) by (destruct v; [congruence | simpl List.length; lia]).
  split.
  - unfold avg_order_of.
    assert (Hpos : 0 < total_customers v) by lia.
    destruct (avg_order_pos (total_sales v) _ Hpos) as [-> ->].
    eexists. split; [reflexivity|].
    apply quotient_between; lia.
  - unfold avg_sales, series_mean. rewrite Hn.
    destruct (Z.eqb_spec (Z.of_nat (List.length v)) 0) as [E|_]; [lia|].
    eexists. split; [reflexivity|].
    apply mean_between; [exact Hlen | exact Hs].
Qed.

Lemma demo_figures_range_witness :
  exists df w' q,
    create_demo_data world0 = (Ok df, w')
    /\ kpi_avg_order (main df [mkDate 2024 3 1; mkDate 2024 3 7] "Tashkent") = Ok q
    /\ (inject_Z 300 <= q)%Q.
Proof.
  destruct (demo_figures_range world0) as (df & w' & Hrun & H).
  destruct (H [mkDate 2024 3 1; mkDate 2024 3 7] "Tashkent") as [(q & Hq & Hb & _) _].
  - pose proof (create_demo_data_run world0) as E. rewrite Hrun in E.
    apply run_value_inj in E. rewrite E. vm_compute. discriminate.
  - exists df, w', q. repeat split; assumption.
Defined.
